(** * go-axle: the KeyRing accessor (keyring.go)

    A shallow embedding of [keyring.go].  Go strings are byte strings and are
    carried as [string] (a list of 8-bit [ascii]).  The HTTP transport
    ([doHttpRequest]), the clock ([time.Now]), the constant
    [VERSION_ENDPOINT] and the stats/keys helpers live in other files of the
    package and are taken as parameters.  The two standard-library packages
    the file leans on, [net/url] and [encoding/json], are modelled in the
    modules [Url] and [Json]. *)

From Stdlib Require Import ZArith List Bool String Ascii Lia.
From Stdlib Require Import DecimalString DecimalZ.
From Stdlib Require Import Permutation Sorted.
Import ListNotations.
Open Scope string_scope.
Open Scope Z_scope.

#[local] Set Warnings "-register-all".

(** ** Byte and string helpers *)

Definition byte_of (c : ascii) : N := N_of_ascii c.

Definition in_range (lo hi c : ascii) : bool :=
  (byte_of lo <=? byte_of c)%N && (byte_of c <=? byte_of hi)%N.

Definition is_lower (c : ascii) : bool := in_range "a" "z" c.
Definition is_upper (c : ascii) : bool := in_range "A" "Z" c.
Definition is_digit (c : ascii) : bool := in_range "0" "9" c.

Fixpoint string_forall (p : ascii -> bool) (s : string) : bool :=
  match s with
  | EmptyString => true
  | String c r => p c && string_forall p r
  end.

(** [strings.Contains]-style search: is [needle] a substring of [s]? *)
Fixpoint contains (needle s : string) : bool :=
  String.prefix needle s ||
  match s with
  | EmptyString => false
  | String _ r => contains needle r
  end.

(** [%d] of an integer: decimal digits, a leading [-] when negative. *)
Definition fmt_d (z : Z) : string := NilZero.string_of_int (Z.to_int z).

(** ** net/url: QueryEscape *)

Module Url.

(** [shouldEscape(c, encodeQueryComponent)]: only the unreserved characters
    of RFC 3986 section 2.3 are left alone; every reserved character and
    everything else is escaped. *)
Definition shouldEscape (c : ascii) : bool :=
  if is_lower c || is_upper c || is_digit c then false
  else if (Ascii.eqb c "-" || Ascii.eqb c "_" || Ascii.eqb c "."
           || Ascii.eqb c "~")%bool then false
  else true.

(** ["0123456789ABCDEF"[n]] *)
Definition upperhex (n : N) : ascii :=
  if (n <? 10)%N then ascii_of_N (48 + n) else ascii_of_N (55 + n).

Definition escape_byte (c : ascii) : string :=
  if shouldEscape c then
    if Ascii.eqb c " " then "+"
    else String "%" (String (upperhex (N.shiftr (byte_of c) 4))
                    (String (upperhex (N.land (byte_of c) 15)) EmptyString))
  else String c EmptyString.

Fixpoint QueryEscape (s : string) : string :=
  match s with
  | EmptyString => EmptyString
  | String c r => escape_byte c ++ QueryEscape r
  end.

(** Characters a [QueryEscape] result is made of. *)
Definition escaped_char (c : ascii) : bool :=
  negb (shouldEscape c) || Ascii.eqb c "%" || Ascii.eqb c "+".

End Url.

(** ** float64

    The timestamp fields are [float64].  The values the code itself stores
    are whole numbers of milliseconds ([float64(UnixNano / 1e6)]), and the
    model carries finite values as whole numbers; the non-finite values are
    kept because [json.Marshal] refuses them. *)

Inductive float64 : Type :=
| Whole (z : Z)
| NaN
| Inf (negative : bool).

Definition float64_is_zero (f : float64) : bool :=
  match f with
  | Whole z => z =? 0
  | _ => false
  end.

(** ** encoding/json *)

Module Json.

(** What [json.Unmarshal] stores in an [interface{}]: [nil], [bool],
    [float64], [string], [[]interface{}] or [map[string]interface{}].
    A Go map has one value per key; the members of [JObj] are kept sorted
    by key without duplicates (see [obj_insert]), which is also the order
    in which [json.Marshal] writes a map.  Number literals with a fraction
    or an exponent are outside the model: [parse] rejects them. *)
Inductive value : Type :=
| JNull
| JBool (b : bool)
| JNum (z : Z)
| JStr (s : string)
| JArr (l : list value)
| JObj (fs : list (string * value)).

Inductive error : Type :=
| SyntaxError
| UnmarshalTypeError (got into : string)
| UnsupportedValueError.

(** [err.Error()] *)
Definition Error (e : error) : string :=
  match e with
  | SyntaxError => "invalid character in JSON input"
  | UnmarshalTypeError got into =>
      "json: cannot unmarshal " ++ got ++ " into Go value of type " ++ into
  | UnsupportedValueError => "json: unsupported value"
  end.

(** [m[k] = v] *)
Fixpoint obj_insert (k : string) (v : value) (fs : list (string * value))
  : list (string * value) :=
  match fs with
  | [] => [(k, v)]
  | (k', v') :: r =>
      match String.compare k k' with
      | Lt => (k, v) :: fs
      | Eq => (k, v) :: r
      | Gt => (k', v') :: obj_insert k v r
      end
  end.

(** [v, exists := m[k]] *)
Fixpoint get (k : string) (fs : list (string * value)) : option value :=
  match fs with
  | [] => None
  | (k', v) :: r => if String.eqb k k' then Some v else get k r
  end.

Definition quote : ascii := ascii_of_N 34.
Definition backslash : ascii := ascii_of_N 92.

Definition is_ws (c : ascii) : bool :=
  let n := byte_of c in
  ((n =? 32) || (n =? 9) || (n =? 10) || (n =? 13))%N.

Fixpoint skip_ws (s : string) : string :=
  match s with
  | String c r => if is_ws c then skip_ws r else s
  | EmptyString => s
  end.

Definition hexval (c : ascii) : option N :=
  if is_digit c then Some (byte_of c - 48)%N
  else if in_range "a" "f" c then Some (byte_of c - 87)%N
  else if in_range "A" "F" c then Some (byte_of c - 55)%N
  else None.

Definition hex4 (a b c d : ascii) : option N :=
  match hexval a, hexval b, hexval c, hexval d with
  | Some x, Some y, Some z, Some w => Some (((x * 16 + y) * 16 + z) * 16 + w)%N
  | _, _, _, _ => None
  end.

(** UTF-8 of a code point of the basic plane; a surrogate half is written
    as U+FFFD (surrogate pairs are not combined in the model). *)
Definition utf8 (cp : N) : string :=
  let b n := ascii_of_N n in
  let cp := if ((55296 <=? cp) && (cp <=? 57343))%N then 65533%N else cp in
  if (cp <? 128)%N then String (b cp) EmptyString
  else if (cp <? 2048)%N then
    String (b (192 + N.shiftr cp 6)%N)
      (String (b (128 + N.land cp 63)%N) EmptyString)
  else
    String (b (224 + N.shiftr cp 12)%N)
      (String (b (128 + N.land (N.shiftr cp 6) 63)%N)
         (String (b (128 + N.land cp 63)%N) EmptyString)).

(** The rest of a string literal, after its opening quote. *)
Fixpoint parse_string_body (s : string) : option (string * string) :=
  match s with
  | EmptyString => None
  | String c r =>
      if Ascii.eqb c quote then Some (EmptyString, r)
      else if Ascii.eqb c backslash then
        match r with
        | String "u" (String h1 (String h2 (String h3 (String h4 r')))) =>
            match hex4 h1 h2 h3 h4, parse_string_body r' with
            | Some cp, Some (t, rest) => Some (utf8 cp ++ t, rest)
            | _, _ => None
            end
        | String e r' =>
            let unesc :=
              if Ascii.eqb e quote then Some quote
              else if Ascii.eqb e backslash then Some backslash
              else match e with
                   | "/" => Some "/"
                   | "b" => Some (ascii_of_N 8)
                   | "f" => Some (ascii_of_N 12)
                   | "n" => Some (ascii_of_N 10)
                   | "r" => Some (ascii_of_N 13)
                   | "t" => Some (ascii_of_N 9)
                   | _ => None
                   end%char in
            match unesc, parse_string_body r' with
            | Some x, Some (t, rest) => Some (String x t, rest)
            | _, _ => None
            end
        | EmptyString => None
        end
      else if (byte_of c <? 32)%N then None
      else
        match parse_string_body r with
        | Some (t, rest) => Some (String c t, rest)
        | None => None
        end
  end.

Definition digit_of (c : ascii) : option (Decimal.uint -> Decimal.uint) :=
  match c with
  | "0" => Some Decimal.D0 | "1" => Some Decimal.D1 | "2" => Some Decimal.D2
  | "3" => Some Decimal.D3 | "4" => Some Decimal.D4 | "5" => Some Decimal.D5
  | "6" => Some Decimal.D6 | "7" => Some Decimal.D7 | "8" => Some Decimal.D8
  | "9" => Some Decimal.D9
  | _ => None
  end%char.

Fixpoint read_digits (s : string) : Decimal.uint * string :=
  match s with
  | EmptyString => (Decimal.Nil, EmptyString)
  | String c r =>
      match digit_of c with
      | Some f => let (d, rest) := read_digits r in (f d, rest)
      | None => (Decimal.Nil, s)
      end
  end.

(** An integer literal: at least one digit, no leading zero before another
    digit, and no fraction or exponent following. *)
Definition parse_number (negative : bool) (s : string) : option (value * string) :=
  let (d, rest) := read_digits s in
  let ok_digits :=
    match d with
    | Decimal.Nil => false
    | Decimal.D0 Decimal.Nil => true
    | Decimal.D0 _ => false
    | _ => true
    end in
  let ok_rest :=
    match rest with
    | String c _ => negb (Ascii.eqb c "." || Ascii.eqb c "e" || Ascii.eqb c "E")
    | EmptyString => true
    end in
  if ok_digits && ok_rest then
    Some (JNum (Z.of_int (if negative then Decimal.Neg d else Decimal.Pos d)), rest)
  else None.

Definition expect (lit : string) (v : value) (s : string) : option (value * string) :=
  if String.prefix lit s
  then Some (v, substring (String.length lit) (String.length s - String.length lit) s)
  else None.

Fixpoint parse_value (fuel : nat) (s : string) {struct fuel} : option (value * string) :=
  match fuel with
  | O => None
  | S fuel' =>
      match skip_ws s with
      | EmptyString => None
      | String c r =>
          if Ascii.eqb c quote then
            match parse_string_body r with
            | Some (t, rest) => Some (JStr t, rest)
            | None => None
            end
          else
            match c with
            | "{" =>
                match skip_ws r with
                | String "}" rest => Some (JObj [], rest)
                | _ => parse_members fuel' [] r
                end
            | "[" =>
                match skip_ws r with
                | String "]" rest => Some (JArr [], rest)
                | _ => parse_elements fuel' [] r
                end
            | "t" => expect "rue" (JBool true) r
            | "f" => expect "alse" (JBool false) r
            | "n" => expect "ull" JNull r
            | "-" => parse_number true r
            | _ => parse_number false (String c r)
            end%char
      end
  end
with parse_members (fuel : nat) (acc : list (string * value)) (s : string)
       {struct fuel} : option (value * string) :=
  match fuel with
  | O => None
  | S fuel' =>
      match skip_ws s with
      | String c r =>
          if Ascii.eqb c quote then
            match parse_string_body r with
            | Some (k, r1) =>
                match skip_ws r1 with
                | String ":" r2 =>
                    match parse_value fuel' r2 with
                    | Some (v, r3) =>
                        match skip_ws r3 with
                        | String "," r4 => parse_members fuel' (obj_insert k v acc) r4
                        | String "}" r4 => Some (JObj (obj_insert k v acc), r4)
                        | _ => None
                        end
                    | None => None
                    end
                | _ => None
                end
            | None => None
            end
          else None
      | EmptyString => None
      end
  end
with parse_elements (fuel : nat) (acc : list value) (s : string)
       {struct fuel} : option (value * string) :=
  match fuel with
  | O => None
  | S fuel' =>
      match parse_value fuel' s with
      | Some (v, r1) =>
          match skip_ws r1 with
          | String "," r2 => parse_elements fuel' (v :: acc) r2
          | String "]" r2 => Some (JArr (rev (v :: acc)), r2)
          | _ => None
          end
      | None => None
      end
  end.

(** A whole document: one value, then only white space.  Of any two nested
    calls of the parser at least one consumes a byte, so twice the length
    of the input is fuel enough. *)
Definition parse (s : string) : option value :=
  match parse_value (2 * String.length s + 2) s with
  | Some (v, rest) =>
      match skip_ws rest with
      | EmptyString => Some v
      | _ => None
      end
  | None => None
  end.

(** *** Encoding of an [interface{}] tree *)

Definition lowerhex (n : N) : ascii :=
  if (n <? 10)%N then ascii_of_N (48 + n) else ascii_of_N (87 + n).

(** One byte inside a string literal, as [json.Marshal] writes it (HTML
    escaping on).  Bytes from 0x80 up are copied: the model does not
    re-validate UTF-8. *)
Definition escape_char (c : ascii) : string :=
  let n := byte_of c in
  if Ascii.eqb c quote then String backslash (String quote EmptyString)
  else if Ascii.eqb c backslash then String backslash (String backslash EmptyString)
  else if (n =? 10)%N then String backslash "n"
  else if (n =? 13)%N then String backslash "r"
  else if (n =? 9)%N then String backslash "t"
  else if ((n <? 32) || (n =? 60) || (n =? 62) || (n =? 38))%N then
    String backslash
      ("u00" ++ String (lowerhex (N.shiftr n 4))
                  (String (lowerhex (N.land n 15)) EmptyString))
  else String c EmptyString.

Fixpoint escape_string (s : string) : string :=
  match s with
  | EmptyString => EmptyString
  | String c r => escape_char c ++ escape_string r
  end.

Definition quoted (s : string) : string :=
  String quote (escape_string s ++ String quote EmptyString).

(** [json.Marshal] of a decoded tree.  It cannot fail on such a tree. *)
Fixpoint print (v : value) : string :=
  match v with
  | JNull => "null"
  | JBool true => "true"
  | JBool false => "false"
  | JNum z => fmt_d z
  | JStr s => quoted s
  | JArr l =>
      "[" ++ (fix elems (l : list value) : string :=
                match l with
                | [] => EmptyString
                | [x] => print x
                | x :: r => print x ++ "," ++ elems r
                end) l ++ "]"
  | JObj fs =>
      "{" ++ (fix members (fs : list (string * value)) : string :=
                match fs with
                | [] => EmptyString
                | [(k, x)] => quoted k ++ ":" ++ print x
                | (k, x) :: r => quoted k ++ ":" ++ print x ++ "," ++ members r
                end) fs ++ "}"
  end.

(** The JSON kind named in an [UnmarshalTypeError]. *)
Definition kind (v : value) : string :=
  match v with
  | JNull => "null"
  | JBool _ => "bool"
  | JNum _ => "number"
  | JStr _ => "string"
  | JArr _ => "array"
  | JObj _ => "object"
  end.

(** [json.Unmarshal(data, &m)] for [m] a [map[string]interface{}] that was
    just made empty.  The result is the map afterwards: [JObj] for an
    object; [JNull] stands for the nil map that a [null] document leaves.
    Any other document is a type error. *)
Definition Unmarshal_map (data : string) : value + error :=
  match parse data with
  | None => inr SyntaxError
  | Some (JObj fs) => inl (JObj fs)
  | Some JNull => inl JNull
  | Some v => inr (UnmarshalTypeError (kind v) "map[string]interface {}")
  end.

(** [v, exists := m[key]] on a map that may be nil. *)
Definition index (m : value) (key : string) : option value :=
  match m with
  | JObj fs => get key fs
  | _ => None
  end.

End Json.

(** ** The KeyRing type *)

(** Go's [error] values are carried by their message. *)
Definition error : Type := string.

(** How a call ends: it returns a value with a nil error, returns a non-nil
    error, or panics. *)
Inductive result (A : Type) : Type :=
| Ok (a : A)
| Err (e : error)
| Panic (msg : string).
Arguments Ok {A} a.
Arguments Err {A} e.
Arguments Panic {A} msg.

Definition is_Err {A : Type} (r : result A) : bool :=
  match r with
  | Err _ => true
  | _ => false
  end.

Record KeyRing : Type := mkKeyRing {
  Identifier : string;     (* `json:"-"` *)
  CreatedAt : float64;     (* `json:"createdAt,omitempty"` *)
  UpdatedAt : float64;     (* `json:"updatedAt,omitempty"` *)
  axleAddress : string;
  createOnSave : bool
}.

Definition set_CreatedAt (k : KeyRing) (f : float64) : KeyRing :=
  mkKeyRing (Identifier k) f (UpdatedAt k) (axleAddress k) (createOnSave k).
Definition set_UpdatedAt (k : KeyRing) (f : float64) : KeyRing :=
  mkKeyRing (Identifier k) (CreatedAt k) f (axleAddress k) (createOnSave k).
Definition set_createOnSave (k : KeyRing) (b : bool) : KeyRing :=
  mkKeyRing (Identifier k) (CreatedAt k) (UpdatedAt k) (axleAddress k) b.

(** *** encoding/json on KeyRing, as the struct tags direct it *)

Module KeyRingJson.
Import Json.

(** One [omitempty] float64 field: nothing when zero, [Some] of its member
    text otherwise; NaN and the infinities are unsupported values. *)
Definition field (name : string) (f : float64) : option string + Json.error :=
  if float64_is_zero f then inl None
  else match f with
       | Whole z => inl (Some (quoted name ++ ":" ++ fmt_d z))
       | _ => inr UnsupportedValueError
       end.

(** [json.Marshal(keyRing)]: [Identifier] is tagged [-] and the two
    unexported fields are invisible to the encoder. *)
Definition Marshal (k : KeyRing) : string + Json.error :=
  match field "createdAt" (CreatedAt k), field "updatedAt" (UpdatedAt k) with
  | inr e, _ => inr e
  | _, inr e => inr e
  | inl None, inl None => inl "{}"
  | inl (Some c), inl None => inl ("{" ++ c ++ "}")
  | inl None, inl (Some u) => inl ("{" ++ u ++ "}")
  | inl (Some c), inl (Some u) => inl ("{" ++ c ++ "," ++ u ++ "}")
  end.

Definition lower (c : ascii) : ascii :=
  if is_upper c then ascii_of_N (byte_of c + 32) else c.

Fixpoint string_map (f : ascii -> ascii) (s : string) : string :=
  match s with
  | EmptyString => EmptyString
  | String c r => String (f c) (string_map f r)
  end.

(** A member name selects a field when it equals the field's JSON name up
    to (ASCII) letter case. *)
Definition names (member fieldname : string) : bool :=
  String.eqb (string_map lower member) (string_map lower fieldname).

(** A JSON value stored into a float64 field.  A number is stored, [null]
    leaves the field alone, anything else is a type error and leaves the
    field alone. *)
Definition store_float64 (v : value) (old : float64) : float64 * option Json.error :=
  match v with
  | JNum z => (Whole z, None)
  | JNull => (old, None)
  | _ => (old, Some (UnmarshalTypeError (kind v) "float64"))
  end.

Definition first_error (saved new : option Json.error) : option Json.error :=
  match saved with
  | Some e => Some e
  | None => new
  end.

(** The decoder walks the members of the object in order; a type error is
    saved and decoding goes on, the first saved error being returned at the
    end.  The members come from [parse], which delivers them sorted by key
    and without duplicates: exactly the member sequence of every text this
    file feeds to the struct decoder, since each is the output of
    [json.Marshal]. *)
Fixpoint decode_members (fs : list (string * value)) (k : KeyRing)
         (saved : option Json.error) : KeyRing * option Json.error :=
  match fs with
  | [] => (k, saved)
  | (name, v) :: r =>
      if names name "createdAt" then
        let (f, e) := store_float64 v (CreatedAt k) in
        decode_members r (set_CreatedAt k f) (first_error saved e)
      else if names name "updatedAt" then
        let (f, e) := store_float64 v (UpdatedAt k) in
        decode_members r (set_UpdatedAt k f) (first_error saved e)
      else decode_members r k saved
  end.

(** [json.Unmarshal(data, keyRing)] with [keyRing] a [*KeyRing]: the struct
    it points to is filled in place; [null] is a no-op. *)
Definition Unmarshal (data : string) (k : KeyRing) : KeyRing * option Json.error :=
  match parse data with
  | None => (k, Some SyntaxError)
  | Some JNull => (k, None)
  | Some (JObj fs) => decode_members fs k None
  | Some v => (k, Some (UnmarshalTypeError (kind v) "goaxle.KeyRing"))
  end.

(** [json.Unmarshal(data, keyRing)] with [keyRing] a [**KeyRing]: as above,
    except that [null] sets the [*KeyRing] it points to to nil.  The first
    component is that pointer afterwards ([None] for nil; the struct it
    pointed to is then untouched). *)
Definition Unmarshal_ptr (data : string) (k : KeyRing)
  : option KeyRing * option Json.error :=
  match parse data with
  | Some JNull => (None, None)
  | _ => let (k', e) := Unmarshal data k in (Some k', e)
  end.

End KeyRingJson.

(** Single quotes stand for double quotes in the JSON texts written below. *)
Fixpoint dq (s : string) : string :=
  match s with
  | EmptyString => EmptyString
  | String c r => String (if Ascii.eqb c "'" then Json.quote else c) (dq r)
  end.

(** ** keyring.go *)

(** What [doHttpRequest] hands back: the response bytes or an error. *)
Inductive response : Type :=
| Body (body : string)
| Failure (e : error).

(** NewKeyRing creates a new KeyRing object with defaults. *)
Definition NewKeyRing (axleAddress identifier : string) : KeyRing :=
  {| Identifier := identifier;
     CreatedAt := Whole 0;
     UpdatedAt := Whole 0;
     axleAddress := axleAddress;
     createOnSave := true |}.

(** The loop of [populateKeyRingFromResponse]: navigate to the spot in the
    response to read from. *)
Fixpoint descend (response : Json.value) (detailsLocation : list string)
  : Json.value + error :=
  match detailsLocation with
  | [] => inl response
  | key :: rest =>
      match Json.index response key with
      | None => inr ("Response map did not contain expected key: " ++ key)
      | Some (Json.JObj fs) => descend (Json.JObj fs) rest
      | Some _ => inr ("key " ++ key ++ " did not contain map")
      end
  end.

(** [populateKeyRingFromResponse(&keyRing, body, detailsLocation)].  The
    first component is the caller's [*KeyRing] afterwards: [Some] of the
    struct it points to, or [None] when it has been set to nil. *)
Definition populateKeyRingFromResponse (keyRing : KeyRing) (body : string)
           (detailsLocation : list string) : option KeyRing * option error :=
  match Json.Unmarshal_map body with
  | inr e => (Some keyRing, Some ("Unable to unmarshal response: " ++ Json.Error e))
  | inl response =>
      match descend response detailsLocation with
      | inr e => (Some keyRing, Some e)
      | inl response =>
          let jsonvalue := Json.print response in
          match KeyRingJson.Unmarshal_ptr jsonvalue keyRing with
          | (p, Some e) =>
              (p, Some ("Unable to decode keyring in response: " ++ Json.Error e))
          | (p, None) => (p, None)
          end
      end
  end.

Definition nil_dereference : string :=
  "runtime error: invalid memory address or nil pointer dereference".

(** The loop of [KeyRings] over the entries of the results map.  Go leaves
    the iteration order of a map unspecified; the model visits the entries
    in key order. *)
Fixpoint KeyRings_entries (axleAddress : string) (entries : list (string * Json.value))
  : result (list KeyRing) :=
  match entries with
  | [] => Ok []
  | (identifier, value) :: rest =>
      let keyring := NewKeyRing axleAddress identifier in
      let jsonvalue := Json.print value in
      match KeyRingJson.Unmarshal jsonvalue keyring with
      | (_, Some e) => Err ("Unable to decode keyring in response: " ++ Json.Error e)
      | (keyring, None) =>
          let keyring := set_createOnSave keyring false in
          match KeyRings_entries axleAddress rest with
          | Ok out => Ok (keyring :: out)
          | other => other
          end
      end
  end.

Section Client.

(** The parts of the package that are not in keyring.go. *)
Variable VERSION_ENDPOINT : string.
Variable doHttpRequest : string -> string -> option string -> response.
(** [time.Now().UnixNano()] at the moment [Save] reads the clock. *)
Variable now : Z.
Variable Key : Type.
Variable NewKey : string -> string -> Key.
Variable populateKeyFromResponse :
  Key -> string -> list string -> option Key * option error.
Variable Key_set_createOnSave : Key -> bool -> Key.
Variable KeyList : Type.
Variable doKeysRequest : string -> string -> KeyList.
Variable Stats : Type.
Variable doStatsRequest : string -> Stats.

(** [fmt.Sprintf("%s%skeyring/%s", axleAddress, VERSION_ENDPOINT,
    url.QueryEscape(identifier))] *)
Definition keyring_address (axleAddress identifier : string) : string :=
  axleAddress ++ VERSION_ENDPOINT ++ "keyring/" ++ Url.QueryEscape identifier.

(** [Save]: the KeyRing the receiver points to afterwards, and how the call
    ended. *)
Definition Save (this : KeyRing) : KeyRing * result unit :=
  let reqAddress := keyring_address (axleAddress this) (Identifier this) in
  let this := set_UpdatedAt this (Whole (Z.quot now (1000 * 1000))) in
  match KeyRingJson.Marshal this with
  | inr e => (this, Err ("Unable to marshal KeyRing: " ++ Json.Error e))
  | inl marshalled =>
      if negb (createOnSave this) then
        (this, Err "Unable to update key rings, it's not yet supported")
      else
        let httpMethod := "POST" in
        match doHttpRequest httpMethod reqAddress (Some marshalled) with
        | Failure e => (this, Err e)
        | Body body =>
            let (p, err) :=
              if negb (createOnSave this)
              then populateKeyRingFromResponse this body ["results"; "new"]
              else populateKeyRingFromResponse this body ["results"] in
            match p, err with
            | Some this, Some e => (this, Err e)
            | None, Some e => (this, Err e)
            | Some this, None => (set_createOnSave this false, Ok tt)
            | None, None => (this, Panic nil_dereference)
            end
        end
  end.

(** GetKeyRing retrieves an existing object from the server. *)
Definition GetKeyRing (axleAddress identifier : string) : result KeyRing :=
  let reqAddress := keyring_address axleAddress identifier in
  match doHttpRequest "GET" reqAddress None with
  | Failure e => Err e
  | Body body =>
      let keyRing := NewKeyRing axleAddress identifier in
      match populateKeyRingFromResponse keyRing body ["results"] with
      | (_, Some e) => Err e
      | (Some keyRing, None) => Ok (set_createOnSave keyRing false)
      | (None, None) => Panic nil_dereference
      end
  end.

(** DeleteKeyRing removes the identified KeyRing. *)
Definition DeleteKeyRing (axleAddress identifier : string) : result unit :=
  let reqAddress := keyring_address axleAddress identifier in
  match doHttpRequest "DELETE" reqAddress None with
  | Failure e => Err e
  | Body body =>
      match Json.Unmarshal_map body with
      | inr e =>
          Err ("Unable to unmarshal response from " ++ reqAddress ++ ": " ++ Json.Error e)
      | inl responseMap =>
          match Json.index responseMap "results" with
          | None => Err ("Missing response from " ++ reqAddress)
          | Some (Json.JBool succeeded) =>
              if negb succeeded
              then Err ("Delete of KeyRing at " ++ reqAddress ++ " failed")
              else Ok tt
          | Some _ => Err ("Unable to extract response object from " ++ reqAddress)
          end
      end
  end.

Definition linkkey_address (axleAddress keyRingIdentifier keyIdentifier : string) : string :=
  axleAddress ++ VERSION_ENDPOINT ++ "keyring/" ++ Url.QueryEscape keyRingIdentifier
    ++ "/linkkey/" ++ Url.QueryEscape keyIdentifier.

Definition unlinkkey_address (axleAddress keyRingIdentifier keyIdentifier : string) : string :=
  axleAddress ++ VERSION_ENDPOINT ++ "keyring/" ++ Url.QueryEscape keyRingIdentifier
    ++ "/unlinkkey/" ++ Url.QueryEscape keyIdentifier.

(** The common tail of [KeyRingLinkKey] and [KeyRingUnlinkKey]. *)
Definition put_relation (reqAddress axleAddress keyIdentifier : string) : result Key :=
  match doHttpRequest "PUT" reqAddress (Some "{}") with
  | Failure e => Err e
  | Body body =>
      let key := NewKey axleAddress keyIdentifier in
      match populateKeyFromResponse key body ["results"] with
      | (_, Some e) => Err e
      | (Some key, None) => Ok (Key_set_createOnSave key false)
      | (None, None) => Panic nil_dereference
      end
  end.

Definition KeyRingLinkKey (axleAddress keyRingIdentifier keyIdentifier : string)
  : result Key :=
  put_relation (linkkey_address axleAddress keyRingIdentifier keyIdentifier)
               axleAddress keyIdentifier.

Definition LinkKey (this : KeyRing) (keyIdentifier : string) : result Key :=
  KeyRingLinkKey (axleAddress this) (Identifier this) keyIdentifier.

Definition KeyRingUnlinkKey (axleAddress keyRingIdentifier keyIdentifier : string)
  : result Key :=
  put_relation (unlinkkey_address axleAddress keyRingIdentifier keyIdentifier)
               axleAddress keyIdentifier.

Definition UnlinkKey (this : KeyRing) (keyIdentifier : string) : result Key :=
  KeyRingUnlinkKey (axleAddress this) (Identifier this) keyIdentifier.

Definition keys_address (axleAddress identifier : string) (from to : Z) : string :=
  axleAddress ++ VERSION_ENDPOINT ++ "keyring/" ++ Url.QueryEscape identifier
    ++ "/keys?resolve=true&from=" ++ fmt_d from ++ "&to=" ++ fmt_d to.

Definition KeyRingKeys (axleAddress identifier : string) (from to : Z) : KeyList :=
  doKeysRequest (keys_address axleAddress identifier from to) axleAddress.

Definition Keys (this : KeyRing) (from to : Z) : KeyList :=
  KeyRingKeys (axleAddress this) (Identifier this) from to.

(** The address [KeyRingStats] requests.  [from] and [to] are the [Unix()]
    seconds of the two times; [granularity] is printed with [%s]. *)
Definition stats_address (axleAddress keyRingIdentifier : string) (from to : Z)
           (forapi forkey granularity : string) : string :=
  let reqAddress :=
    axleAddress ++ VERSION_ENDPOINT ++ "keyring/" ++ Url.QueryEscape keyRingIdentifier
      ++ "/stats?from=" ++ fmt_d from ++ "&to=" ++ fmt_d to
      ++ "&granularity=" ++ granularity in
  let reqAddress :=
    if negb (String.eqb forkey EmptyString)
    then reqAddress ++ "&forkey=" ++ Url.QueryEscape forkey
    else reqAddress in
  let reqAddress :=
    if negb (String.eqb forapi EmptyString)
    then reqAddress ++ "&forapi=" ++ Url.QueryEscape forapi
    else reqAddress in
  reqAddress.

(** [func KeyRingStats(axleAddress, keyRingIdentifier, from, to, forapi,
    forkey, granularity)]: the parameters in the order of the declaration. *)
Definition KeyRingStats (axleAddress keyRingIdentifier : string) (from to : Z)
           (forapi forkey granularity : string) : Stats :=
  doStatsRequest
    (stats_address axleAddress keyRingIdentifier from to forapi forkey granularity).

Definition KeyRing_Stats (this : KeyRing) (from to : Z) (granularity : string) : Stats :=
  KeyRingStats (axleAddress this) (Identifier this) from to
               EmptyString EmptyString granularity.

(** [return KeyRingStats(this.axleAddress, this.Identifier, from, to, forkey,
    "", granularity)] *)
Definition StatsForKey (this : KeyRing) (from to : Z) (forkey granularity : string)
  : Stats :=
  KeyRingStats (axleAddress this) (Identifier this) from to
               forkey EmptyString granularity.

(** [return KeyRingStats(this.axleAddress, this.Identifier, from, to, "",
    forapi, granularity)] *)
Definition StatsForApi (this : KeyRing) (from to : Z) (forapi granularity : string)
  : Stats :=
  KeyRingStats (axleAddress this) (Identifier this) from to
               EmptyString forapi granularity.

Definition keyrings_address (axleAddress : string) (from to : Z) : string :=
  axleAddress ++ VERSION_ENDPOINT ++ "keyrings?resolve=true&from=" ++ fmt_d from
    ++ "&to=" ++ fmt_d to.

(** KeyRings lists all key rings.  When the type assertion on
    [response["results"]] fails, the error message is built from
    [err.Error()] with [err] nil at that point. *)
Definition KeyRings (axleAddress : string) (from to : Z) : result (list KeyRing) :=
  let reqAddress := keyrings_address axleAddress from to in
  match doHttpRequest "GET" reqAddress None with
  | Failure e => Err e
  | Body body =>
      match Json.Unmarshal_map body with
      | inr e => Err ("Unable to unmarshal response: " ++ Json.Error e)
      | inl response =>
          match Json.index response "results" with
          | Some (Json.JObj entries) => KeyRings_entries axleAddress entries
          | _ => Panic nil_dereference
          end
      end
  end.

End Client.

(** ** Vocabulary of the statements *)

(** Two KeyRings that agree on everything the JSON decoder cannot reach. *)
Definition same_local (a b : KeyRing) : Prop :=
  Identifier a = Identifier b /\ axleAddress a = axleAddress b
  /\ createOnSave a = createOnSave b.

(** The KeyRing the caller's pointer referred to before the call, as it is
    afterwards: the pointer's new target, or the old struct, untouched, when
    the pointer has been set to nil. *)
Definition pointee_after (k : KeyRing) (p : option KeyRing) : KeyRing :=
  match p with
  | Some k' => k'
  | None => k
  end.


Definition unsupported_update : error :=
  "Unable to update key rings, it's not yet supported".

Definition is_object (v : Json.value) : bool :=
  match v with
  | Json.JObj _ => true
  | _ => false
  end.

(** The inverse reading of a query-escaped text ([url.QueryUnescape]): [+]
    is a space, [%XY] is the byte with hexadecimal digits [X] and [Y]. *)
Fixpoint QueryUnescape (s : string) : option string :=
  match s with
  | EmptyString => Some EmptyString
  | String c r =>
      if Ascii.eqb c "%" then
        match r with
        | String h (String l r') =>
            match Json.hexval h, Json.hexval l, QueryUnescape r' with
            | Some a, Some b, Some t => Some (String (ascii_of_N (a * 16 + b)) t)
            | _, _, _ => None
            end
        | _ => None
        end
      else
        match QueryUnescape r with
        | Some t => Some (String (if Ascii.eqb c "+" then " "%char else c) t)
        | None => None
        end
  end.



(** A transport that answers every request with the same bytes. *)
Definition answering (body : string) : string -> string -> option string -> response :=
  fun _ _ _ => Body body.

(** ** String() *)





(** ** More vocabulary *)

Definition is_finite (f : float64) : bool :=
  match f with
  | Whole _ => true
  | _ => false
  end.

(** A transport that answers one request with [body] and fails on every
    other. *)
Definition answering_only (method address : string) (sent : option string)
           (body : string) : string -> string -> option string -> response :=
  fun m a b =>
    if String.eqb m method && String.eqb a address
       && match b, sent with
          | Some x, Some y => String.eqb x y
          | None, None => true
          | _, _ => false
          end
    then Body body
    else Failure "unexpected request".

(** ** Vocabulary for the JSON texts *)




(** A bound on the nesting of parser calls that reading a value back takes. *)
Fixpoint size (v : Json.value) : nat :=
  match v with
  | Json.JArr l =>
      S ((fix sizes (l : list Json.value) : nat :=
            match l with
            | [] => O
            | x :: r => S (size x + sizes r)
            end) l)
  | Json.JObj fs =>
      S ((fix sizes (fs : list (string * Json.value)) : nat :=
            match fs with
            | [] => O
            | (_, x) :: r => S (size x + sizes r)
            end) fs)
  | _ => 1%nat
  end.

Definition key_lt (a b : string) : Prop := String.compare a b = Lt.

(** The trees the decoder builds for a Go map: at every object the keys are
    strictly increasing, hence distinct. *)
Inductive well_formed : Json.value -> Prop :=
| wf_null : well_formed Json.JNull
| wf_bool (b : bool) : well_formed (Json.JBool b)
| wf_num (z : Z) : well_formed (Json.JNum z)
| wf_str (s : string) : well_formed (Json.JStr s)
| wf_arr (l : list Json.value) :
    Forall well_formed l -> well_formed (Json.JArr l)
| wf_obj (fs : list (string * Json.value)) :
    Forall (fun p => well_formed (snd p)) fs ->
    StronglySorted key_lt (map fst fs) ->
    well_formed (Json.JObj fs).


(** ** Decoding a value without the detour through text *)









(** * Properties *)

Example QueryEscape_plain : Url.QueryEscape "ring-1_a.b~Z" = "ring-1_a.b~Z".
Proof. reflexivity. Qed.

Example fmt_d_samples : fmt_d 0 = "0" /\ fmt_d 1700 = "1700" /\ fmt_d (-5) = "-5".
Proof. repeat split. Qed.

(** ** What decoding never touches *)

Lemma same_local_refl (k : KeyRing) : same_local k k.
Proof. repeat split. Qed.

Lemma same_local_trans (a b c : KeyRing) :
  same_local a b -> same_local b c -> same_local a c.
Proof.
  unfold same_local; intros (H1 & H2 & H3) (H4 & H5 & H6).
  repeat split; congruence.
Qed.

Lemma decode_members_local (fs : list (string * Json.value)) :
  forall k saved, same_local (fst (KeyRingJson.decode_members fs k saved)) k.
Proof.
  induction fs as [|[name v] r IH]; intros k saved; simpl.
  - apply same_local_refl.
  - destruct (KeyRingJson.names name "createdAt").
    + destruct (KeyRingJson.store_float64 v (CreatedAt k)) as [f e].
      eapply same_local_trans; [apply IH|]. repeat split.
    + destruct (KeyRingJson.names name "updatedAt").
      * destruct (KeyRingJson.store_float64 v (UpdatedAt k)) as [f e].
        eapply same_local_trans; [apply IH|]. repeat split.
      * apply IH.
Qed.

Lemma Unmarshal_local (data : string) (k : KeyRing) :
  same_local (fst (KeyRingJson.Unmarshal data k)) k.
Proof.
  unfold KeyRingJson.Unmarshal.
  destruct (Json.parse data) as [[| | | | |fs]|]; simpl;
    try apply same_local_refl.
  apply decode_members_local.
Qed.

Lemma Unmarshal_ptr_local (data : string) (k k' : KeyRing) :
  fst (KeyRingJson.Unmarshal_ptr data k) = Some k' -> same_local k' k.
Proof.
  unfold KeyRingJson.Unmarshal_ptr.
  pose proof (Unmarshal_local data k) as H.
  destruct (Json.parse data) as [[| | | | |fs]|];
    destruct (KeyRingJson.Unmarshal data k) as [k1 e]; simpl in *;
    intros E; inversion E; subst; assumption.
Qed.

Lemma populate_local (k k' : KeyRing) (body : string) (path : list string) :
  fst (populateKeyRingFromResponse k body path) = Some k' -> same_local k' k.
Proof.
  unfold populateKeyRingFromResponse.
  destruct (Json.Unmarshal_map body) as [r|e]; simpl.
  2:{ intros E; inversion E; apply same_local_refl. }
  destruct (descend r path) as [r'|e]; simpl.
  2:{ intros E; inversion E; apply same_local_refl. }
  pose proof (Unmarshal_ptr_local (Json.print r') k) as H.
  destruct (KeyRingJson.Unmarshal_ptr (Json.print r') k) as [p [e|]]; simpl in *;
    intros E; subst; apply H; reflexivity.
Qed.

(** ** The pointer survives every non-empty key path *)

Lemma parse_members_object (fuel : nat) :
  forall acc s v rest,
    Json.parse_members fuel acc s = Some (v, rest) -> is_object v = true.
Proof.
  induction fuel as [|fuel IH]; intros acc s v rest; simpl; [discriminate|].
  destruct (Json.skip_ws s) as [|c r]; [discriminate|].
  destruct (Ascii.eqb c Json.quote); [|discriminate].
  destruct (Json.parse_string_body r) as [[k r1]|]; [|discriminate].
  destruct (Json.skip_ws r1) as [|c1 r2]; [discriminate|].
  destruct (Ascii.eqb_spec c1 ":") as [->|N].
  2:{ destruct c1 as [[] [] [] [] [] [] [] []]; try discriminate.
      exfalso; apply N; reflexivity. }
  destruct (Json.parse_value fuel r2) as [[x r3]|]; [|discriminate].
  destruct (Json.skip_ws r3) as [|c3 r4]; [discriminate|].
  destruct (Ascii.eqb_spec c3 ",") as [->|N1].
  { apply IH. }
  destruct (Ascii.eqb_spec c3 "}") as [->|N2].
  { intros E; inversion E; reflexivity. }
  destruct c3 as [[] [] [] [] [] [] [] []]; try discriminate;
    exfalso; (apply N1; reflexivity) || (apply N2; reflexivity).
Qed.

Lemma parse_value_brace (fuel : nat) (s : string) :
  Json.parse_value (S fuel) (String "{" s) =
  match Json.skip_ws s with
  | String "}" rest => Some (Json.JObj [], rest)
  | _ => Json.parse_members fuel [] s
  end.
Proof. reflexivity. Qed.

Lemma parse_brace_object (s : string) (v : Json.value) :
  Json.parse (String "{" s) = Some v -> is_object v = true.
Proof.
  unfold Json.parse.
  remember (2 * String.length (String "{" s) + 2)%nat as fuel eqn:Hf.
  destruct fuel as [|fuel]; [simpl in Hf; lia|].
  rewrite parse_value_brace.
  assert (M : forall x r, Json.parse_members fuel [] s = Some (x, r) ->
                          is_object x = true).
  { intros x r E. eapply parse_members_object; exact E. }
  assert (D : forall o : option (Json.value * string),
             (forall x r, o = Some (x, r) -> is_object x = true) ->
             match o with
             | Some (x, rest) =>
                 match Json.skip_ws rest with
                 | EmptyString => Some x
                 | _ => None
                 end
             | None => None
             end = Some v -> is_object v = true).
  { intros [[x r]|] Hx; [|discriminate].
    destruct (Json.skip_ws r); intros H; inversion H; subst.
    eapply Hx; reflexivity. }
  apply D.
  destruct (Json.skip_ws s) as [|c r]; [exact M|].
  destruct (Ascii.eqb_spec c "}") as [->|N].
  - intros x r0 E; inversion E; reflexivity.
  - destruct c as [[] [] [] [] [] [] [] []]; try exact M.
    exfalso; apply N; reflexivity.
Qed.

Lemma print_object_brace (fs : list (string * Json.value)) :
  exists s, Json.print (Json.JObj fs) = String "{" s.
Proof. simpl. eexists. reflexivity. Qed.

Lemma Unmarshal_ptr_object (fs : list (string * Json.value)) (k : KeyRing) :
  fst (KeyRingJson.Unmarshal_ptr (Json.print (Json.JObj fs)) k) <> None.
Proof.
  destruct (print_object_brace fs) as [s ->].
  unfold KeyRingJson.Unmarshal_ptr.
  pose proof (parse_brace_object s) as H.
  destruct (Json.parse (String "{" s)) as [v|];
    [specialize (H v eq_refl); destruct v; try discriminate H|];
    destruct (KeyRingJson.Unmarshal (String "{" s) k); simpl; discriminate.
Qed.

Lemma descend_object (path : list string) :
  forall r r', path <> [] -> descend r path = inl r' -> is_object r' = true.
Proof.
  induction path as [|key rest IH]; intros r r' Hne; [congruence|].
  simpl. destruct (Json.index r key) as [[| | | | |fs]|]; try discriminate.
  destruct rest as [|key' rest'].
  - simpl. intros E; inversion E; reflexivity.
  - apply IH. discriminate.
Qed.

Lemma populate_pointer_kept (k : KeyRing) (body : string) (path : list string) :
  path <> [] -> fst (populateKeyRingFromResponse k body path) <> None.
Proof.
  intros Hne. unfold populateKeyRingFromResponse.
  destruct (Json.Unmarshal_map body) as [r|e]; simpl; [|discriminate].
  destruct (descend r path) as [r'|e] eqn:D; simpl; [|discriminate].
  apply descend_object in D; [|assumption].
  destruct r' as [| | | | |fs]; try discriminate D.
  pose proof (Unmarshal_ptr_object fs k) as H.
  destruct (KeyRingJson.Unmarshal_ptr (Json.print (Json.JObj fs)) k) as [p [e|]];
    simpl in *; assumption.
Qed.

(** ** Identity of a populated KeyRing *)

(** C10: for every response body and every key path,
    populateKeyRingFromResponse leaves the Identifier and axleAddress of the
    target KeyRing as they were (Identifier is excluded from JSON decoding);
    consequently a successful GetKeyRing(address, identifier) returns a
    KeyRing whose Identifier is the requested identifier and whose
    axleAddress is the supplied address, whatever identifier the response
    body carries. *)
Theorem populate_keeps_identity
        (V : string) (http : string -> string -> option string -> response) :
  (forall (k : KeyRing) (body : string) (path : list string),
      let after := pointee_after k (fst (populateKeyRingFromResponse k body path)) in
      Identifier after = Identifier k /\ axleAddress after = axleAddress k)
  /\ (forall (address identifier : string) (out : KeyRing),
         GetKeyRing V http address identifier = Ok out ->
         Identifier out = identifier /\ axleAddress out = address).
Proof.
  split.
  - intros k body path after. subst after.
    destruct (fst (populateKeyRingFromResponse k body path)) as [k'|] eqn:E; simpl.
    + apply populate_local in E. destruct E as (H1 & H2 & _). split; assumption.
    + split; reflexivity.
  - intros address identifier out. unfold GetKeyRing.
    destruct (http "GET" (keyring_address V address identifier) None) as [body|e];
      [|discriminate].
    pose proof (populate_local (NewKeyRing address identifier)) as L.
    specialize (L) with (body := body) (path := ["results"]).
    destruct (populateKeyRingFromResponse (NewKeyRing address identifier) body ["results"])
      as [[k'|] [e|]]; try discriminate.
    intros E; inversion E; subst out; clear E.
    destruct (L k' eq_refl) as (H1 & H2 & _). simpl in *. split; assumption.
Qed.

Lemma populate_keeps_identity_witness :
  GetKeyRing "/v1/" (answering (dq "{'results':{'identifier':'other','createdAt':1}}"))
             "http://h" "ring"
  = Ok (mkKeyRing "ring" (Whole 1) (Whole 0) "http://h" false)
  /\ Identifier (mkKeyRing "ring" (Whole 1) (Whole 0) "http://h" false) = "ring"
  /\ axleAddress (mkKeyRing "ring" (Whole 1) (Whole 0) "http://h" false) = "http://h".
Proof.
  split; [vm_compute; reflexivity|].
  apply (proj2 (populate_keeps_identity "/v1/"
           (answering (dq "{'results':{'identifier':'other','createdAt':1}}")))
           "http://h" "ring").
  vm_compute; reflexivity.
Defined.

(** ** The createOnSave flag *)

Lemma KeyRings_entries_not_pending (address : string) (entries : list (string * Json.value)) :
  forall out, KeyRings_entries address entries = Ok out ->
              Forall (fun k => createOnSave k = false) out.
Proof.
  induction entries as [|[identifier value] rest IH]; intros out; simpl.
  - intros E; inversion E; constructor.
  - destruct (KeyRingJson.Unmarshal (Json.print value) (NewKeyRing address identifier))
      as [k [e|]]; [discriminate|].
    destruct (KeyRings_entries address rest) as [l|e|m]; try discriminate.
    intros E; inversion E; subst out. constructor; [reflexivity|].
    apply IH; reflexivity.
Qed.

(** C6: the pendingCreate lifecycle.  NewKeyRing returns a proxy with
    createOnSave = true; a proxy returned by GetKeyRing or produced by
    KeyRings has createOnSave = false; and after a Save() that returns nil
    on a pending proxy, that proxy's createOnSave is false. *)
Theorem createOnSave_lifecycle
        (V : string) (http : string -> string -> option string -> response) (now : Z) :
  (forall address identifier, createOnSave (NewKeyRing address identifier) = true)
  /\ (forall address identifier out,
         GetKeyRing V http address identifier = Ok out -> createOnSave out = false)
  /\ (forall address from to out,
         KeyRings V http address from to = Ok out ->
         Forall (fun k => createOnSave k = false) out)
  /\ (forall this this',
         createOnSave this = true ->
         Save V http now this = (this', Ok tt) -> createOnSave this' = false).
Proof.
  repeat split.
  - intros address identifier out. unfold GetKeyRing.
    destruct (http "GET" (keyring_address V address identifier) None) as [body|e];
      [|discriminate].
    destruct (populateKeyRingFromResponse (NewKeyRing address identifier) body ["results"])
      as [[k'|] [e|]]; try discriminate.
    intros E; inversion E; reflexivity.
  - intros address from to out. unfold KeyRings.
    destruct (http "GET" (keyrings_address V address from to) None) as [body|e];
      [|discriminate].
    destruct (Json.Unmarshal_map body) as [r|e]; [|discriminate].
    destruct (Json.index r "results") as [[| | | | |entries]|]; try discriminate.
    apply KeyRings_entries_not_pending.
  - intros this this' Hp. unfold Save.
    destruct (KeyRingJson.Marshal _) as [m|e]; [|intros E; inversion E].
    simpl createOnSave. rewrite Hp. simpl negb. cbv iota.
    destruct (http "POST" _ (Some m)) as [body|e]; [|intros E; inversion E].
    destruct (populateKeyRingFromResponse _ body ["results"]) as [[k'|] [e|]];
      intros E; inversion E; reflexivity.
Qed.

Lemma createOnSave_lifecycle_witness :
  let http := answering (dq "{'results':{'k1':{'createdAt':7},'k2':{}}}") in
  createOnSave (NewKeyRing "http://h" "results") = true
  /\ createOnSave (mkKeyRing "results" (Whole 0) (Whole 0) "http://h" false) = false
  /\ Forall (fun k => createOnSave k = false)
            [mkKeyRing "k1" (Whole 7) (Whole 0) "http://h" false;
             mkKeyRing "k2" (Whole 0) (Whole 0) "http://h" false]
  /\ createOnSave (mkKeyRing "results" (Whole 0) (Whole 5) "http://h" false) = false.
Proof.
  intros http.
  destruct (createOnSave_lifecycle "/v1/" http 5000000) as (H1 & H2 & H3 & H4).
  split; [apply H1|]. split; [|split].
  - apply (H2 "http://h" "results"). vm_compute; reflexivity.
  - apply (H3 "http://h" 0 10). vm_compute; reflexivity.
  - apply (H4 (NewKeyRing "http://h" "results")).
    + reflexivity.
    + vm_compute; reflexivity.
Defined.

(** ** Save on a proxy that is not pending *)

(** C3, as written, fails: with a CreatedAt that JSON cannot carry, Save on a
    non-pending proxy returns the marshalling error, not the
    unsupported-update error. *)
Lemma Save_existing_NaN_not_unsupported :
  snd (Save "/v1/" (answering "{}") 5000000
            (mkKeyRing "ring" NaN (Whole 0) "http://h" false))
  <> Err unsupported_update.
Proof. vm_compute. discriminate. Qed.

(** C3 (amended): for every KeyRing whose createOnSave flag is false, Save()
    never succeeds, whatever its fields hold: it returns the
    unsupported-update error when CreatedAt is finite, and the marshalling
    error when CreatedAt is NaN or infinite (the entity is serialized before
    the flag is looked at). *)
Theorem Save_existing_never_succeeds
        (V : string) (http : string -> string -> option string -> response) (now : Z)
        (this : KeyRing) :
  createOnSave this = false ->
  snd (Save V http now this) =
  match CreatedAt this with
  | Whole _ => Err unsupported_update
  | _ => Err ("Unable to marshal KeyRing: " ++ Json.Error Json.UnsupportedValueError)
  end.
Proof.
  intros Hp. unfold Save. generalize (Z.quot now (1000 * 1000)); intros q.
  unfold KeyRingJson.Marshal, KeyRingJson.field.
  simpl CreatedAt. simpl UpdatedAt. simpl createOnSave. rewrite Hp.
  destruct (CreatedAt this) as [z| |b]; simpl float64_is_zero.
  - destruct (z =? 0); destruct (q =? 0); reflexivity.
  - reflexivity.
  - reflexivity.
Qed.

Lemma Save_existing_never_succeeds_witness :
  snd (Save "/v1/" (answering (dq "{'results':{}}")) 5000000
            (mkKeyRing "ring" (Whole 3) (Whole 4) "http://h" false))
  = Err unsupported_update.
Proof.
  apply (Save_existing_never_succeeds "/v1/" (answering (dq "{'results':{}}")) 5000000
           (mkKeyRing "ring" (Whole 3) (Whole 4) "http://h" false)).
  reflexivity.
Defined.

(** ** What a failed Save leaves behind *)

(** C4, as written, fails: the disabled-update error leaves UpdatedAt
    overwritten with the clock reading, and a response whose members decode
    only in part leaves CreatedAt overwritten although Save returns an
    error. *)
Lemma Save_error_changes_timestamps :
  let existing := mkKeyRing "ring" (Whole 3) (Whole 4) "http://h" false in
  let pending := NewKeyRing "http://h" "ring" in
  let http := answering (dq "{'results':{'createdAt':9,'updatedAt':'x'}}") in
  (is_Err (snd (Save "/v1/" http 5000000 existing)) = true
   /\ UpdatedAt (fst (Save "/v1/" http 5000000 existing)) <> UpdatedAt existing)
  /\ (is_Err (snd (Save "/v1/" http 5000000 pending)) = true
      /\ CreatedAt (fst (Save "/v1/" http 5000000 pending)) <> CreatedAt pending).
Proof. vm_compute. repeat split; discriminate. Qed.

(** C4 (amended): whenever Save() returns an error (the disabled-update
    error, or a transport, encoding or envelope error), the KeyRing's
    Identifier, axleAddress and createOnSave are exactly what they were
    before the call.  (The timestamps are not covered.) *)
Theorem Save_error_keeps_local
        (V : string) (http : string -> string -> option string -> response) (now : Z)
        (this : KeyRing) :
  is_Err (snd (Save V http now this)) = true ->
  same_local (fst (Save V http now this)) this.
Proof.
  unfold Save.
  set (this1 := set_UpdatedAt this (Whole (Z.quot now (1000 * 1000)))).
  assert (L1 : same_local this1 this) by (repeat split).
  destruct (KeyRingJson.Marshal this1) as [m|e]; [|intros _; exact L1].
  destruct (negb (createOnSave this1)); [intros _; exact L1|].
  destruct (http "POST" _ (Some m)) as [body|e]; [|intros _; exact L1].
  pose proof (populate_local this1) as L. specialize L with (body := body) (path := ["results"]).
  destruct (populateKeyRingFromResponse this1 body ["results"]) as [[k'|] [e|]];
    simpl; try discriminate; intros _.
  - eapply same_local_trans; [apply L; reflexivity|exact L1].
  - exact L1.
Qed.

Lemma Save_error_keeps_local_witness :
  same_local
    (fst (Save "/v1/" (answering (dq "{'results':{'createdAt':9,'updatedAt':'x'}}"))
               5000000 (NewKeyRing "http://h" "ring")))
    (NewKeyRing "http://h" "ring").
Proof.
  apply (Save_error_keeps_local "/v1/"
           (answering (dq "{'results':{'createdAt':9,'updatedAt':'x'}}"))
           5000000 (NewKeyRing "http://h" "ring")).
  vm_compute; reflexivity.
Defined.

(** ** Request addresses *)

Lemma escape_byte_unescape (c : ascii) (r : string) :
  QueryUnescape (Url.escape_byte c ++ r) =
  match QueryUnescape r with
  | Some t => Some (String c t)
  | None => None
  end.
Proof.
  destruct c as [[] [] [] [] [] [] [] []]; reflexivity.
Qed.

Lemma QueryEscape_unescape (s : string) :
  QueryUnescape (Url.QueryEscape s) = Some s.
Proof.
  induction s as [|c r IH]; [reflexivity|].
  simpl Url.QueryEscape. rewrite escape_byte_unescape, IH. reflexivity.
Qed.

Lemma string_forall_app (p : ascii -> bool) (a b : string) :
  string_forall p (a ++ b) = string_forall p a && string_forall p b.
Proof.
  induction a as [|c r IH]; simpl; [reflexivity|].
  rewrite IH. apply andb_assoc.
Qed.

Lemma escape_byte_chars (c : ascii) :
  string_forall Url.escaped_char (Url.escape_byte c) = true.
Proof.
  destruct c as [[] [] [] [] [] [] [] []]; reflexivity.
Qed.

Lemma QueryEscape_chars (s : string) :
  string_forall Url.escaped_char (Url.QueryEscape s) = true.
Proof.
  induction s as [|c r IH]; [reflexivity|].
  simpl Url.QueryEscape. rewrite string_forall_app, escape_byte_chars, IH.
  reflexivity.
Qed.






(** ** Statistics requests *)

Lemma StatsForKey_address (V : string) (Stats : Type) (doStatsRequest : string -> Stats)
      (this : KeyRing) (from to : Z) (forkey granularity : string) :
  forkey <> EmptyString ->
  StatsForKey V Stats doStatsRequest this from to forkey granularity
  = doStatsRequest
      (stats_address V (axleAddress this) (Identifier this) from to
                     EmptyString EmptyString granularity
       ++ "&forapi=" ++ Url.QueryEscape forkey).
Proof.
  intros Hne. unfold StatsForKey, KeyRingStats, stats_address. simpl.
  destruct (String.eqb_spec forkey EmptyString) as [E|_]; [contradiction|reflexivity].
Qed.

Lemma StatsForApi_address (V : string) (Stats : Type) (doStatsRequest : string -> Stats)
      (this : KeyRing) (from to : Z) (forapi granularity : string) :
  forapi <> EmptyString ->
  StatsForApi V Stats doStatsRequest this from to forapi granularity
  = doStatsRequest
      (stats_address V (axleAddress this) (Identifier this) from to
                     EmptyString EmptyString granularity
       ++ "&forkey=" ++ Url.QueryEscape forapi).
Proof.
  intros Hne. unfold StatsForApi, KeyRingStats, stats_address. simpl.
  destruct (String.eqb_spec forapi EmptyString) as [E|_]; [contradiction|reflexivity].
Qed.

(** C1: StatsForKey(from, to, k, granularity) should request an address whose
    query holds forkey=k and no forapi, and StatsForApi symmetrically.  The
    code hands the identifier to KeyRingStats in the other parameter's
    position: for the key "k1" the address requested carries forapi=k1 and
    no forkey, and for the API "a1" it carries forkey=a1 and no forapi. *)
Theorem StatsForKey_requests_forapi :
  let this := NewKeyRing "http://h" "ring" in
  let spy := fun address : string => address in
  StatsForKey "/v1/" string spy this 1 2 "k1" "hour"
  = "http://h/v1/keyring/ring/stats?from=1&to=2&granularity=hour&forapi=k1"
  /\ contains "forkey=" (StatsForKey "/v1/" string spy this 1 2 "k1" "hour") = false
  /\ StatsForApi "/v1/" string spy this 1 2 "a1" "hour"
     = "http://h/v1/keyring/ring/stats?from=1&to=2&granularity=hour&forkey=a1"
  /\ contains "forapi=" (StatsForApi "/v1/" string spy this 1 2 "a1" "hour") = false.
Proof. vm_compute. repeat split. Qed.

(** ** Listing all key rings *)

Lemma KeyRings_without_results (V address : string) (from to : Z) (body : string)
      (m : Json.value) :
  Json.Unmarshal_map body = inl m ->
  match Json.index m "results" with
  | Some v => is_object v = false
  | None => True
  end ->
  KeyRings V (answering body) address from to = Panic nil_dereference.
Proof.
  intros Hm Hr. unfold KeyRings, answering. rewrite Hm.
  destruct (Json.index m "results") as [[| | | | |fs]|]; try reflexivity.
  discriminate Hr.
Qed.

(** C2: KeyRings applied to a body that is valid JSON but whose "results"
    is absent or not an object should return a non-nil error.  On the
    bodies {} and {"results":5} the code instead panics: the error it means
    to return is formatted from err.Error() with err nil. *)
Theorem KeyRings_panics_without_results (V address : string) (from to : Z) :
  KeyRings V (answering "{}") address from to = Panic nil_dereference
  /\ KeyRings V (answering (dq "{'results':5}")) address from to = Panic nil_dereference.
Proof. split; reflexivity. Qed.

(** ** Deleting a key ring *)



(** ** Unwrapping the envelope *)

Lemma descend_app (before rest : list string) :
  forall r,
    descend r (before ++ rest) =
    match descend r before with
    | inl r' => descend r' rest
    | inr e => inr e
    end.
Proof.
  induction before as [|key before IH]; intros r; simpl; [reflexivity|].
  destruct (Json.index r key) as [[| | | | |fs]|]; try reflexivity.
  apply IH.
Qed.

(** C7, as written, fails: the identifier member of the body is not decoded,
    so a target named "ring" comes out of the unwrap still named "ring",
    not "x". *)
Lemma populate_ignores_body_identifier :
  option_map Identifier
    (fst (populateKeyRingFromResponse (NewKeyRing "http://h" "ring")
            (dq "{'results':{'identifier':'x','createdAt':1}}") ["results"]))
  <> Some "x".
Proof. vm_compute. discriminate. Qed.

(** C7 (amended): populateKeyRingFromResponse at key path ["results"]
    applied to the body {"results":{"identifier":"x","createdAt":1}} sets
    the target's CreatedAt to 1 and leaves everything else of the target,
    its Identifier included, as it was; applied to the body {"other":{}} it
    fails with the missing-key error; and at any descent step, a key that is
    absent fails with the missing-key error and a key whose value is not a
    JSON object fails with the did-not-contain-map error, the target being
    left untouched. *)
Theorem populate_results_envelope (k : KeyRing) :
  populateKeyRingFromResponse k (dq "{'results':{'identifier':'x','createdAt':1}}")
                              ["results"]
  = (Some (set_CreatedAt k (Whole 1)), None)
  /\ populateKeyRingFromResponse k (dq "{'other':{}}") ["results"]
     = (Some k, Some "Response map did not contain expected key: results")
  /\ (forall body top before key rest here,
         Json.Unmarshal_map body = inl top ->
         descend top before = inl here ->
         Json.index here key = None ->
         populateKeyRingFromResponse k body (before ++ key :: rest)
         = (Some k, Some ("Response map did not contain expected key: " ++ key)))
  /\ (forall body top before key rest here v,
         Json.Unmarshal_map body = inl top ->
         descend top before = inl here ->
         Json.index here key = Some v ->
         is_object v = false ->
         populateKeyRingFromResponse k body (before ++ key :: rest)
         = (Some k, Some ("key " ++ key ++ " did not contain map"))).
Proof.
  split; [|split; [|split]].
  - destruct k; reflexivity.
  - reflexivity.
  - intros body top before key rest here Hm Hd Hi.
    unfold populateKeyRingFromResponse. rewrite Hm, descend_app, Hd.
    simpl. rewrite Hi. reflexivity.
  - intros body top before key rest here v Hm Hd Hi Hv.
    unfold populateKeyRingFromResponse. rewrite Hm, descend_app, Hd.
    simpl. rewrite Hi. destruct v; try reflexivity. discriminate Hv.
Qed.

Lemma populate_results_envelope_witness :
  let k := NewKeyRing "http://h" "ring" in
  populateKeyRingFromResponse k (dq "{'results':{'new':5}}") ["results"; "missing"; "new"]
  = (Some k, Some "Response map did not contain expected key: missing")
  /\ populateKeyRingFromResponse k (dq "{'results':{'new':5}}") ["results"; "new"]
     = (Some k, Some "key new did not contain map").
Proof.
  intros k.
  destruct (populate_results_envelope k) as (_ & _ & H3 & H4).
  split.
  - apply (H3 (dq "{'results':{'new':5}}")
              (Json.JObj [("results", Json.JObj [("new", Json.JNum 5)])])
              ["results"] "missing" ["new"]
              (Json.JObj [("new", Json.JNum 5)]));
      vm_compute; reflexivity.
  - apply (H4 (dq "{'results':{'new':5}}")
              (Json.JObj [("results", Json.JObj [("new", Json.JNum 5)])])
              ["results"] "new" []
              (Json.JObj [("new", Json.JNum 5)]) (Json.JNum 5));
      vm_compute; reflexivity.
Defined.

(** ** Numbers written by the encoder are read back by the decoder *)










(** ** A serialized KeyRing read back *)










(** * Further properties of keyring.go *)

(** ** What KeyRings returns *)

Lemma KeyRings_entries_identifiers (address : string) (entries : list (string * Json.value)) :
  forall out,
    KeyRings_entries address entries = Ok out ->
    map Identifier out = map fst entries
    /\ Forall (fun k => axleAddress k = address) out.
Proof.
  induction entries as [|[identifier value] rest IH]; intros out; simpl.
  - intros E; inversion E; split; [reflexivity|constructor].
  - pose proof (Unmarshal_local (Json.print value) (NewKeyRing address identifier)) as L.
    destruct (KeyRingJson.Unmarshal (Json.print value) (NewKeyRing address identifier))
      as [k [e|]]; [discriminate|].
    destruct (KeyRings_entries address rest) as [l|e|m]; try discriminate.
    intros E; inversion E; subst out; clear E.
    destruct (IH l eq_refl) as [I A]. destruct L as (L1 & L2 & _). simpl in *.
    split; [rewrite L1, I; reflexivity|constructor; assumption].
Qed.

(** ** Request addresses tell identifiers apart *)

Lemma QueryEscape_injective (a b : string) :
  Url.QueryEscape a = Url.QueryEscape b -> a = b.
Proof.
  intros E. pose proof (QueryEscape_unescape a) as H.
  rewrite E, QueryEscape_unescape in H. congruence.
Qed.

Lemma append_cancel_l (a x y : string) : a ++ x = a ++ y -> x = y.
Proof.
  induction a as [|c a IH]; simpl; intros E; [exact E|].
  inversion E. apply IH. assumption.
Qed.

Lemma split_at_slash (a b x y : string) :
  string_forall Url.escaped_char a = true ->
  string_forall Url.escaped_char b = true ->
  a ++ String "/" x = b ++ String "/" y ->
  a = b /\ x = y.
Proof.
  revert b. induction a as [|c a IH]; intros [|d b]; simpl; intros Ha Hb E.
  - inversion E. split; reflexivity.
  - inversion E; subst d. discriminate Hb.
  - inversion E; subst c. discriminate Ha.
  - inversion E; subst d.
    apply andb_true_iff in Ha, Hb. destruct Ha as [_ Ha], Hb as [_ Hb].
    destruct (IH b Ha Hb H1) as [-> ->]. split; reflexivity.
Qed.

(** X2: on one server, the address of a request determines the identifiers
    it was built from: two key ring addresses are equal only for equal
    identifiers, and two link, unlink or keys addresses are equal only when
    the key ring identifiers agree (and, for link and unlink, the key
    identifiers too).  An identifier can therefore not reach into another
    resource's path. *)
Theorem addresses_tell_identifiers_apart (V address : string) :
  (forall i1 i2,
      keyring_address V address i1 = keyring_address V address i2 -> i1 = i2)
  /\ (forall r1 k1 r2 k2,
         linkkey_address V address r1 k1 = linkkey_address V address r2 k2 ->
         r1 = r2 /\ k1 = k2)
  /\ (forall r1 k1 r2 k2,
         unlinkkey_address V address r1 k1 = unlinkkey_address V address r2 k2 ->
         r1 = r2 /\ k1 = k2)
  /\ (forall i1 i2 from1 to1 from2 to2,
         keys_address V address i1 from1 to1 = keys_address V address i2 from2 to2 ->
         i1 = i2).
Proof.
  repeat split.
  - intros i1 i2 E. unfold keyring_address in E.
    do 3 apply append_cancel_l in E. apply QueryEscape_injective, E.
  - revert H. unfold linkkey_address. intros E.
    do 3 apply append_cancel_l in E.
    apply split_at_slash in E; try apply QueryEscape_chars.
    apply QueryEscape_injective, E.
  - revert H. unfold linkkey_address. intros E.
    do 3 apply append_cancel_l in E.
    apply split_at_slash in E; try apply QueryEscape_chars.
    destruct E as [_ E]. apply (append_cancel_l "linkkey/") in E.
    apply QueryEscape_injective, E.
  - revert H. unfold unlinkkey_address. intros E.
    do 3 apply append_cancel_l in E.
    apply split_at_slash in E; try apply QueryEscape_chars.
    apply QueryEscape_injective, E.
  - revert H. unfold unlinkkey_address. intros E.
    do 3 apply append_cancel_l in E.
    apply split_at_slash in E; try apply QueryEscape_chars.
    destruct E as [_ E]. apply (append_cancel_l "unlinkkey/") in E.
    apply QueryEscape_injective, E.
  - intros i1 i2 from1 to1 from2 to2. unfold keys_address. intros E.
    do 3 apply append_cancel_l in E.
    apply split_at_slash in E; try apply QueryEscape_chars.
    apply QueryEscape_injective, E.
Qed.

Lemma addresses_tell_identifiers_apart_witness :
  "a b/c" = "a b/c" /\ ("ring" = "ring" /\ "k/1" = "k/1").
Proof.
  destruct (addresses_tell_identifiers_apart "/v1/" "http://h") as (H1 & H2 & _).
  split.
  - apply (H1 "a b/c" "a b/c"). reflexivity.
  - apply (H2 "ring" "k/1" "ring" "k/1"). reflexivity.
Defined.

(** ** Timestamps stay finite *)

Lemma decode_members_finite (fs : list (string * Json.value)) :
  forall k saved,
    is_finite (CreatedAt k) = true ->
    is_finite (CreatedAt (fst (KeyRingJson.decode_members fs k saved))) = true.
Proof.
  induction fs as [|[name v] r IH]; intros k saved Hk; simpl; [exact Hk|].
  destruct (KeyRingJson.names name "createdAt").
  - destruct (KeyRingJson.store_float64 v (CreatedAt k)) as [f e] eqn:S.
    apply IH. simpl.
    destruct v; simpl in S; inversion S; subst; try exact Hk; reflexivity.
  - destruct (KeyRingJson.names name "updatedAt").
    + destruct (KeyRingJson.store_float64 v (UpdatedAt k)) as [f e].
      apply IH. exact Hk.
    + apply IH. exact Hk.
Qed.

Lemma Unmarshal_finite (data : string) (k : KeyRing) :
  is_finite (CreatedAt k) = true ->
  is_finite (CreatedAt (fst (KeyRingJson.Unmarshal data k))) = true.
Proof.
  intros Hk. unfold KeyRingJson.Unmarshal.
  destruct (Json.parse data) as [[| | | | |fs]|]; simpl; try exact Hk.
  apply decode_members_finite, Hk.
Qed.

Lemma populate_finite (k k' : KeyRing) (body : string) (path : list string) :
  is_finite (CreatedAt k) = true ->
  fst (populateKeyRingFromResponse k body path) = Some k' ->
  is_finite (CreatedAt k') = true.
Proof.
  intros Hk. unfold populateKeyRingFromResponse.
  destruct (Json.Unmarshal_map body) as [r|e]; simpl.
  2:{ intros E; inversion E; subst; exact Hk. }
  destruct (descend r path) as [r'|e]; simpl.
  2:{ intros E; inversion E; subst; exact Hk. }
  unfold KeyRingJson.Unmarshal_ptr.
  pose proof (Unmarshal_finite (Json.print r') k Hk) as F.
  destruct (Json.parse (Json.print r')) as [[| | | | |fs]|];
    destruct (KeyRingJson.Unmarshal (Json.print r') k) as [k1 [e|]]; simpl in *;
    intros E; inversion E; subst; exact F.
Qed.

Lemma Save_on_existing_result
      (V : string) (http : string -> string -> option string -> response) (now : Z)
      (this : KeyRing) :
  createOnSave this = false ->
  snd (Save V http now this) =
  match CreatedAt this with
  | Whole _ => Err unsupported_update
  | _ => Err ("Unable to marshal KeyRing: " ++ Json.Error Json.UnsupportedValueError)
  end.
Proof.
  intros Hp. unfold Save. generalize (Z.quot now (1000 * 1000)); intros q.
  unfold KeyRingJson.Marshal, KeyRingJson.field.
  simpl CreatedAt. simpl UpdatedAt. simpl createOnSave. rewrite Hp.
  destruct (CreatedAt this) as [z| |b]; simpl float64_is_zero.
  - destruct (z =? 0); destruct (q =? 0); reflexivity.
  - reflexivity.
  - reflexivity.
Qed.

Lemma Save_unsupported (V : string) (http : string -> string -> option string -> response)
      (now : Z) (k : KeyRing) :
  createOnSave k = false ->
  is_finite (CreatedAt k) = true ->
  snd (Save V http now k) = Err unsupported_update.
Proof.
  intros Hp Hf. rewrite (Save_on_existing_result V http now k Hp).
  destruct (CreatedAt k); try discriminate Hf. reflexivity.
Qed.

Lemma Marshal_finite (k : KeyRing) (m : string) :
  KeyRingJson.Marshal k = inl m -> is_finite (CreatedAt k) = true.
Proof.
  unfold KeyRingJson.Marshal, KeyRingJson.field.
  destruct (CreatedAt k) as [z| |b]; simpl; [reflexivity| |];
    destruct (float64_is_zero (UpdatedAt k)); try discriminate;
    destruct (UpdatedAt k); discriminate.
Qed.

Lemma KeyRings_entries_finite (address : string) (entries : list (string * Json.value)) :
  forall out, KeyRings_entries address entries = Ok out ->
              Forall (fun k => is_finite (CreatedAt k) = true) out.
Proof.
  induction entries as [|[identifier value] rest IH]; intros out; simpl.
  - intros E; inversion E; constructor.
  - pose proof (Unmarshal_finite (Json.print value) (NewKeyRing address identifier) eq_refl) as F.
    destruct (KeyRingJson.Unmarshal (Json.print value) (NewKeyRing address identifier))
      as [k [e|]]; [discriminate|].
    destruct (KeyRings_entries address rest) as [l|e|m]; try discriminate.
    intros E; inversion E; subst out. constructor; [exact F|].
    apply IH; reflexivity.
Qed.

(** ** A proxy is saved at most once *)

(** X3: a KeyRing obtained from the server cannot be saved, and a KeyRing
    can be saved only once.  Save() on a KeyRing returned by GetKeyRing, on
    any KeyRing returned by KeyRings, or on a KeyRing whose Save() has just
    succeeded returns the unsupported-update error, whatever the server
    would answer. *)
Theorem second_Save_unsupported
        (V V' : string) (http http' : string -> string -> option string -> response)
        (now now' : Z) :
  (forall address identifier k,
      GetKeyRing V http address identifier = Ok k ->
      snd (Save V' http' now' k) = Err unsupported_update)
  /\ (forall address from to out,
         KeyRings V http address from to = Ok out ->
         Forall (fun k => snd (Save V' http' now' k) = Err unsupported_update) out)
  /\ (forall this this',
         Save V http now this = (this', Ok tt) ->
         snd (Save V' http' now' this') = Err unsupported_update).
Proof.
  split; [|split].
  - intros address identifier k. unfold GetKeyRing.
    destruct (http "GET" (keyring_address V address identifier) None) as [body|e];
      [|discriminate].
    pose proof (populate_finite (NewKeyRing address identifier)) as F.
    specialize F with (body := body) (path := ["results"]).
    destruct (populateKeyRingFromResponse (NewKeyRing address identifier) body ["results"])
      as [[k'|] [e|]]; try discriminate.
    intros E; inversion E; subst k.
    apply Save_unsupported; [reflexivity|]. simpl. apply (F k'); reflexivity.
  - intros address from to out. unfold KeyRings.
    destruct (http "GET" (keyrings_address V address from to) None) as [body|e];
      [|discriminate].
    destruct (Json.Unmarshal_map body) as [r|e]; [|discriminate].
    destruct (Json.index r "results") as [[| | | | |entries]|]; try discriminate.
    intros E.
    pose proof (KeyRings_entries_not_pending address entries out E) as P.
    pose proof (KeyRings_entries_finite address entries out E) as F.
    clear E. induction out as [|k out IH]; constructor.
    + inversion P; inversion F; subst. apply Save_unsupported; assumption.
    + inversion P; inversion F; subst. apply IH; assumption.
  - intros this this'. unfold Save.
    set (this1 := set_UpdatedAt this (Whole (Z.quot now (1000 * 1000)))).
    destruct (KeyRingJson.Marshal this1) as [m|e] eqn:M; [|intros E; inversion E].
    apply Marshal_finite in M.
    destruct (negb (createOnSave this1)); [intros E; inversion E|].
    destruct (http "POST" _ (Some m)) as [body|e]; [|intros E; inversion E].
    pose proof (populate_finite this1) as F.
    specialize F with (body := body) (path := ["results"]).
    destruct (populateKeyRingFromResponse this1 body ["results"]) as [[k'|] [e|]];
      intros E; inversion E; subst this'.
    apply Save_unsupported; [reflexivity|]. simpl. apply (F k' M); reflexivity.
Qed.

Lemma second_Save_unsupported_witness :
  let http := answering (dq "{'results':{'k1':{'createdAt':7}}}") in
  snd (Save "/v2/" (answering "{}") 9000000
            (mkKeyRing "results" (Whole 0) (Whole 0) "http://h" false))
  = Err unsupported_update
  /\ Forall (fun k => snd (Save "/v2/" (answering "{}") 9000000 k) = Err unsupported_update)
            [mkKeyRing "k1" (Whole 7) (Whole 0) "http://h" false]
  /\ snd (Save "/v2/" (answering "{}") 9000000
              (mkKeyRing "results" (Whole 0) (Whole 5) "http://h" false))
     = Err unsupported_update.
Proof.
  intros http.
  destruct (second_Save_unsupported "/v1/" "/v2/" http (answering "{}") 5000000 9000000)
    as (H1 & H2 & H3).
  split; [|split].
  - apply (H1 "http://h" "results"). vm_compute; reflexivity.
  - apply (H2 "http://h" 0 10). vm_compute; reflexivity.
  - apply (H3 (NewKeyRing "http://h" "results")). vm_compute; reflexivity.
Defined.

(** ** One request per operation *)

(** X4: Save() on a KeyRing that is not pending sends nothing: its outcome is
    the same whatever the transport would do.  Save() on any KeyRing depends
    on the transport only through the answer to one request, the POST to the
    key ring's address whose body is the JSON form of the KeyRing with
    UpdatedAt set to the clock's milliseconds. *)
Theorem Save_consults_one_request
        (V : string) (http1 http2 : string -> string -> option string -> response)
        (now : Z) (this : KeyRing) :
  (createOnSave this = false -> Save V http1 now this = Save V http2 now this)
  /\ ((forall m,
          KeyRingJson.Marshal (set_UpdatedAt this (Whole (Z.quot now (1000 * 1000))))
          = inl m ->
          http1 "POST" (keyring_address V (axleAddress this) (Identifier this)) (Some m)
          = http2 "POST" (keyring_address V (axleAddress this) (Identifier this)) (Some m)) ->
      Save V http1 now this = Save V http2 now this).
Proof.
  unfold Save.
  set (this1 := set_UpdatedAt this (Whole (Z.quot now (1000 * 1000)))).
  change (createOnSave this1) with (createOnSave this).
  split.
  - intros ->. destruct (KeyRingJson.Marshal this1); reflexivity.
  - intros H. destruct (KeyRingJson.Marshal this1) as [m|e]; [|reflexivity].
    rewrite (H m eq_refl). reflexivity.
Qed.

Lemma Save_consults_one_request_witness :
  let existing := mkKeyRing "ring" (Whole 3) (Whole 4) "http://h" false in
  let pending := NewKeyRing "http://h" "a b" in
  let picky :=
    answering_only "POST" "http://h/v1/keyring/a+b" (Some (dq "{'updatedAt':5}"))
                   (dq "{'results':{'createdAt':7}}") in
  Save "/v1/" (answering "{}") 5000000 existing
  = Save "/v1/" (fun _ _ _ => Failure "down") 5000000 existing
  /\ Save "/v1/" (answering (dq "{'results':{'createdAt':7}}")) 5000000 pending
     = Save "/v1/" picky 5000000 pending.
Proof.
  intros existing pending picky. split.
  - apply (proj1 (Save_consults_one_request "/v1/" (answering "{}")
                    (fun _ _ _ => Failure "down") 5000000 existing)).
    reflexivity.
  - apply (proj2 (Save_consults_one_request "/v1/"
                    (answering (dq "{'results':{'createdAt':7}}")) picky
                    5000000 pending)).
    intros m E. vm_compute in E. inversion E; subst m. vm_compute. reflexivity.
Defined.

(** X5: each of GetKeyRing, DeleteKeyRing, KeyRings, KeyRingLinkKey and
    KeyRingUnlinkKey depends on the transport only through the answer to one
    request: a GET or DELETE without body to the operation's address, or,
    for link and unlink, a PUT whose body is the empty JSON object. *)
Theorem one_request_per_operation
        (V : string) (http1 http2 : string -> string -> option string -> response)
        (Key : Type) (NewKey : string -> string -> Key)
        (populateKeyFromResponse : Key -> string -> list string -> option Key * option error)
        (Key_set_createOnSave : Key -> bool -> Key) :
  (forall address identifier,
      http1 "GET" (keyring_address V address identifier) None
      = http2 "GET" (keyring_address V address identifier) None ->
      GetKeyRing V http1 address identifier = GetKeyRing V http2 address identifier)
  /\ (forall address identifier,
         http1 "DELETE" (keyring_address V address identifier) None
         = http2 "DELETE" (keyring_address V address identifier) None ->
         DeleteKeyRing V http1 address identifier = DeleteKeyRing V http2 address identifier)
  /\ (forall address from to,
         http1 "GET" (keyrings_address V address from to) None
         = http2 "GET" (keyrings_address V address from to) None ->
         KeyRings V http1 address from to = KeyRings V http2 address from to)
  /\ (forall address ring key,
         http1 "PUT" (linkkey_address V address ring key) (Some "{}")
         = http2 "PUT" (linkkey_address V address ring key) (Some "{}") ->
         KeyRingLinkKey V http1 Key NewKey populateKeyFromResponse Key_set_createOnSave
                        address ring key
         = KeyRingLinkKey V http2 Key NewKey populateKeyFromResponse Key_set_createOnSave
                          address ring key)
  /\ (forall address ring key,
         http1 "PUT" (unlinkkey_address V address ring key) (Some "{}")
         = http2 "PUT" (unlinkkey_address V address ring key) (Some "{}") ->
         KeyRingUnlinkKey V http1 Key NewKey populateKeyFromResponse Key_set_createOnSave
                          address ring key
         = KeyRingUnlinkKey V http2 Key NewKey populateKeyFromResponse Key_set_createOnSave
                            address ring key).
Proof.
  repeat split; intros.
  - unfold GetKeyRing. rewrite H. reflexivity.
  - unfold DeleteKeyRing. rewrite H. reflexivity.
  - unfold KeyRings. rewrite H. reflexivity.
  - unfold KeyRingLinkKey, put_relation. rewrite H. reflexivity.
  - unfold KeyRingUnlinkKey, put_relation. rewrite H. reflexivity.
Qed.

Lemma one_request_per_operation_witness :
  let NewKey := fun _ identifier : string => identifier in
  let populate := fun (key : string) (_ : string) (_ : list string) =>
                    (Some key, @None error) in
  let set := fun (key : string) (_ : bool) => key in
  let body := dq "{'results':true}" in
  GetKeyRing "/v1/" (answering body) "http://h" "r"
  = GetKeyRing "/v1/" (answering_only "GET" "http://h/v1/keyring/r" None body) "http://h" "r"
  /\ DeleteKeyRing "/v1/" (answering body) "http://h" "r"
     = DeleteKeyRing "/v1/" (answering_only "DELETE" "http://h/v1/keyring/r" None body)
                     "http://h" "r"
  /\ KeyRings "/v1/" (answering body) "http://h" 0 10
     = KeyRings "/v1/"
         (answering_only "GET" "http://h/v1/keyrings?resolve=true&from=0&to=10" None body)
         "http://h" 0 10
  /\ KeyRingLinkKey "/v1/" (answering body) string NewKey populate set "http://h" "r" "k"
     = KeyRingLinkKey "/v1/"
         (answering_only "PUT" "http://h/v1/keyring/r/linkkey/k" (Some "{}") body)
         string NewKey populate set "http://h" "r" "k"
  /\ KeyRingUnlinkKey "/v1/" (answering body) string NewKey populate set "http://h" "r" "k"
     = KeyRingUnlinkKey "/v1/"
         (answering_only "PUT" "http://h/v1/keyring/r/unlinkkey/k" (Some "{}") body)
         string NewKey populate set "http://h" "r" "k".
Proof.
  intros NewKey populate set body.
  split; [|split; [|split; [|split]]].
  - apply (proj1 (one_request_per_operation "/v1/" (answering body)
             (answering_only "GET" "http://h/v1/keyring/r" None body)
             string NewKey populate set)).
    vm_compute; reflexivity.
  - apply (proj1 (proj2 (one_request_per_operation "/v1/" (answering body)
             (answering_only "DELETE" "http://h/v1/keyring/r" None body)
             string NewKey populate set))).
    vm_compute; reflexivity.
  - apply (proj1 (proj2 (proj2 (one_request_per_operation "/v1/" (answering body)
             (answering_only "GET" "http://h/v1/keyrings?resolve=true&from=0&to=10" None body)
             string NewKey populate set)))).
    vm_compute; reflexivity.
  - apply (proj1 (proj2 (proj2 (proj2 (one_request_per_operation "/v1/" (answering body)
             (answering_only "PUT" "http://h/v1/keyring/r/linkkey/k" (Some "{}") body)
             string NewKey populate set))))).
    vm_compute; reflexivity.
  - apply (proj2 (proj2 (proj2 (proj2 (one_request_per_operation "/v1/" (answering body)
             (answering_only "PUT" "http://h/v1/keyring/r/unlinkkey/k" (Some "{}") body)
             string NewKey populate set))))).
    vm_compute; reflexivity.
Defined.

(** ** Transport failures *)

(** X6: a transport failure is handed to the caller unchanged.  When the one
    request of GetKeyRing, DeleteKeyRing, KeyRings, KeyRingLinkKey or
    KeyRingUnlinkKey fails with an error, the operation returns that very
    error; and so does Save() on a pending KeyRing with a finite CreatedAt,
    which then leaves the KeyRing changed only in its UpdatedAt. *)
Theorem transport_failure_returned
        (V : string) (http : string -> string -> option string -> response)
        (Key : Type) (NewKey : string -> string -> Key)
        (populateKeyFromResponse : Key -> string -> list string -> option Key * option error)
        (Key_set_createOnSave : Key -> bool -> Key) (e : error) :
  (forall address identifier,
      http "GET" (keyring_address V address identifier) None = Failure e ->
      GetKeyRing V http address identifier = Err e)
  /\ (forall address identifier,
         http "DELETE" (keyring_address V address identifier) None = Failure e ->
         DeleteKeyRing V http address identifier = Err e)
  /\ (forall address from to,
         http "GET" (keyrings_address V address from to) None = Failure e ->
         KeyRings V http address from to = Err e)
  /\ (forall address ring key,
         http "PUT" (linkkey_address V address ring key) (Some "{}") = Failure e ->
         KeyRingLinkKey V http Key NewKey populateKeyFromResponse Key_set_createOnSave
                        address ring key = Err e)
  /\ (forall address ring key,
         http "PUT" (unlinkkey_address V address ring key) (Some "{}") = Failure e ->
         KeyRingUnlinkKey V http Key NewKey populateKeyFromResponse Key_set_createOnSave
                          address ring key = Err e)
  /\ (forall now this,
         createOnSave this = true ->
         is_finite (CreatedAt this) = true ->
         (forall m, http "POST" (keyring_address V (axleAddress this) (Identifier this))
                         (Some m) = Failure e) ->
         Save V http now this
         = (set_UpdatedAt this (Whole (Z.quot now (1000 * 1000))), Err e)).
Proof.
  split; [|split; [|split; [|split; [|split]]]].
  - intros address identifier H. unfold GetKeyRing. rewrite H. reflexivity.
  - intros address identifier H. unfold DeleteKeyRing. rewrite H. reflexivity.
  - intros address from to H. unfold KeyRings. rewrite H. reflexivity.
  - intros address ring key H. unfold KeyRingLinkKey, put_relation. rewrite H. reflexivity.
  - intros address ring key H. unfold KeyRingUnlinkKey, put_relation. rewrite H. reflexivity.
  - intros now this Hp Hf H. unfold Save.
    generalize (Z.quot now (1000 * 1000)); intros q.
    unfold KeyRingJson.Marshal, KeyRingJson.field.
    simpl CreatedAt. simpl UpdatedAt. simpl createOnSave. rewrite Hp.
    destruct (CreatedAt this) as [z| |b]; try discriminate Hf. simpl float64_is_zero.
    destruct (z =? 0); destruct (q =? 0); simpl; rewrite H; reflexivity.
Qed.

Lemma transport_failure_returned_witness :
  let down := fun (_ _ : string) (_ : option string) => Failure "connection refused" in
  let NewKey := fun _ identifier : string => identifier in
  let populate := fun (key : string) (_ : string) (_ : list string) =>
                    (Some key, @None error) in
  let set := fun (key : string) (_ : bool) => key in
  GetKeyRing "/v1/" down "http://h" "r" = Err "connection refused"
  /\ DeleteKeyRing "/v1/" down "http://h" "r" = Err "connection refused"
  /\ KeyRings "/v1/" down "http://h" 0 10 = Err "connection refused"
  /\ KeyRingLinkKey "/v1/" down string NewKey populate set "http://h" "r" "k"
     = Err "connection refused"
  /\ KeyRingUnlinkKey "/v1/" down string NewKey populate set "http://h" "r" "k"
     = Err "connection refused"
  /\ Save "/v1/" down 5000000 (NewKeyRing "http://h" "r")
     = (mkKeyRing "r" (Whole 0) (Whole 5) "http://h" true, Err "connection refused").
Proof.
  intros down NewKey populate set.
  destruct (transport_failure_returned "/v1/" down string NewKey populate set
              "connection refused") as (H1 & H2 & H3 & H4 & H5 & H6).
  split; [apply H1; reflexivity|].
  split; [apply H2; reflexivity|].
  split; [apply H3; reflexivity|].
  split; [apply H4; reflexivity|].
  split; [apply H5; reflexivity|].
  apply (H6 5000000 (NewKeyRing "http://h" "r")); reflexivity.
Defined.

(** * encoding/json: what is written is read back *)

















Lemma parse_elements_eq (fuel : nat) (acc : list Json.value) (s : string) :
  Json.parse_elements (S fuel) acc s =
  match Json.parse_value fuel s with
  | Some (v, r1) =>
      match Json.skip_ws r1 with
      | String "," r2 => Json.parse_elements fuel (v :: acc) r2
      | String "]" r2 => Some (Json.JArr (rev (v :: acc)), r2)
      | _ => None
      end
  | None => None
  end.
Proof. reflexivity. Qed.



(** ** Keys in order *)

Lemma ascii_compare_lt_trans (a b c : ascii) :
  Ascii.compare a b = Lt -> Ascii.compare b c = Lt -> Ascii.compare a c = Lt.
Proof.
  unfold Ascii.compare. rewrite !N.compare_lt_iff. apply N.lt_trans.
Qed.

Lemma key_lt_trans (a b c : string) : key_lt a b -> key_lt b c -> key_lt a c.
Proof.
  unfold key_lt. revert b c.
  induction a as [|x a IH]; intros [|y b] [|z c]; simpl; try discriminate; try reflexivity.
  destruct (Ascii.compare x y) eqn:Exy; try discriminate;
    destruct (Ascii.compare y z) eqn:Eyz; try discriminate; intros H1 H2.
  - apply Ascii.compare_eq_iff in Exy, Eyz. subst.
    unfold Ascii.compare at 1. rewrite N.compare_refl.
    eapply IH; eassumption.
  - apply Ascii.compare_eq_iff in Exy. subst. rewrite Eyz. reflexivity.
  - apply Ascii.compare_eq_iff in Eyz. subst. rewrite Exy. reflexivity.
  - rewrite (ascii_compare_lt_trans x y z Exy Eyz). reflexivity.
Qed.



Lemma obj_insert_keys (Q : string -> Prop) (k : string) (v : Json.value)
      (fs : list (string * Json.value)) :
  Q k -> Forall Q (map fst fs) -> Forall Q (map fst (Json.obj_insert k v fs)).
Proof.
  intros Hk. induction fs as [|[k' v'] r IH]; simpl; intros H.
  - constructor; [exact Hk|constructor].
  - inversion H; subst. destruct (String.compare k k') eqn:C; simpl.
    + constructor; assumption.
    + constructor; [exact Hk|exact H].
    + constructor; [assumption|apply IH; assumption].
Qed.

Lemma obj_insert_sorted (k : string) (v : Json.value) (fs : list (string * Json.value)) :
  StronglySorted key_lt (map fst fs) ->
  StronglySorted key_lt (map fst (Json.obj_insert k v fs)).
Proof.
  induction fs as [|[k' v'] r IH]; simpl; intros H.
  - constructor; constructor.
  - inversion H as [|? ? Hr Hk']; subst.
    destruct (String.compare k k') eqn:C; simpl.
    + apply String.compare_eq_iff in C. subst k'. constructor; assumption.
    + constructor; [exact H|]. constructor; [exact C|].
      eapply Forall_impl; [|exact Hk']. intros a Ha. eapply key_lt_trans; eassumption.
    + constructor; [apply IH; exact Hr|].
      apply obj_insert_keys; [|exact Hk'].
      unfold key_lt. rewrite String.compare_antisym, C. reflexivity.
Qed.

Lemma obj_insert_values (Q : Json.value -> Prop) (k : string) (v : Json.value)
      (fs : list (string * Json.value)) :
  Q v -> Forall (fun p => Q (snd p)) fs ->
  Forall (fun p => Q (snd p)) (Json.obj_insert k v fs).
Proof.
  intros Hv. induction fs as [|[k' v'] r IH]; simpl; intros H.
  - constructor; [exact Hv|constructor].
  - inversion H; subst. destruct (String.compare k k'); constructor;
      try assumption; try (apply IH; assumption).
Qed.

(** ** Arrays and objects read back *)



Lemma size_positive (v : Json.value) : (1 <= size v)%nat.
Proof. destruct v; simpl; lia. Qed.







(** ** What the decoder builds is well formed *)

Lemma expect_value (lit : string) (v v' : Json.value) (s r : string) :
  Json.expect lit v s = Some (v', r) -> v' = v.
Proof.
  unfold Json.expect. destruct (String.prefix lit s); intros E; inversion E; reflexivity.
Qed.

Lemma parse_number_value (negative : bool) (s r : string) (v : Json.value) :
  Json.parse_number negative s = Some (v, r) -> exists z, v = Json.JNum z.
Proof.
  unfold Json.parse_number. destruct (Json.read_digits s) as [d rest].
  match goal with |- context [if ?c then _ else _] => destruct c end;
    intros E; inversion E. eexists; reflexivity.
Qed.

Lemma brace_case (fuel : nat) (t r : string) (v : Json.value) :
  match Json.skip_ws t with
  | String "}" rest => Some (Json.JObj [], rest)
  | _ => Json.parse_members fuel [] t
  end = Some (v, r) ->
  v = Json.JObj [] \/ exists s' r', Json.parse_members fuel [] s' = Some (v, r').
Proof.
  destruct (Json.skip_ws t) as [|c' t'].
  - intros E. right. eexists; eexists; exact E.
  - destruct (Ascii.eqb_spec c' "}") as [->|Nc].
    + intros E; inversion E. left. reflexivity.
    + intros E. right. exists t.
      destruct c' as [[] [] [] [] [] [] [] []];
        try (eexists; exact E). exfalso; apply Nc; reflexivity.
Qed.

Lemma bracket_case (fuel : nat) (t r : string) (v : Json.value) :
  match Json.skip_ws t with
  | String "]" rest => Some (Json.JArr [], rest)
  | _ => Json.parse_elements fuel [] t
  end = Some (v, r) ->
  v = Json.JArr [] \/ exists s' r', Json.parse_elements fuel [] s' = Some (v, r').
Proof.
  destruct (Json.skip_ws t) as [|c' t'].
  - intros E. right. eexists; eexists; exact E.
  - destruct (Ascii.eqb_spec c' "]") as [->|Nc].
    + intros E; inversion E. left. reflexivity.
    + intros E. right. exists t.
      destruct c' as [[] [] [] [] [] [] [] []];
        try (eexists; exact E). exfalso; apply Nc; reflexivity.
Qed.

Lemma parse_value_cases (fuel : nat) (s r : string) (v : Json.value) :
  Json.parse_value (S fuel) s = Some (v, r) ->
  (exists t, v = Json.JStr t) \/ (exists z, v = Json.JNum z)
  \/ v = Json.JNull \/ (exists b, v = Json.JBool b)
  \/ v = Json.JObj [] \/ v = Json.JArr []
  \/ (exists s' r', Json.parse_members fuel [] s' = Some (v, r'))
  \/ (exists s' r', Json.parse_elements fuel [] s' = Some (v, r')).
Proof.
  cbn [Json.parse_value].
  destruct (Json.skip_ws s) as [|c t]; [discriminate|].
  destruct (Ascii.eqb c Json.quote).
  { destruct (Json.parse_string_body t) as [[x rest]|]; intros E; inversion E.
    left. eexists; reflexivity. }
  assert (N : forall negative u, Json.parse_number negative u = Some (v, r) ->
                                 exists z, v = Json.JNum z).
  { intros negative u. apply parse_number_value. }
  destruct c as [[] [] [] [] [] [] [] []]; intros E;
    first
      [ right; left; exact (N _ _ E)
      | apply expect_value in E; subst;
        first [ right; right; left; reflexivity
              | do 3 right; left; eexists; reflexivity ]
      | apply brace_case in E; destruct E as [E|E];
        [do 4 right; left; exact E|do 6 right; left; exact E]
      | apply bracket_case in E; destruct E as [E|E];
        [do 5 right; left; exact E|do 7 right; exact E] ].
Qed.

Lemma parse_well_formed (fuel : nat) :
  (forall s v r, Json.parse_value fuel s = Some (v, r) -> well_formed v)
  /\ (forall acc s v r,
         Json.parse_members fuel acc s = Some (v, r) ->
         Forall (fun p => well_formed (snd p)) acc ->
         StronglySorted key_lt (map fst acc) ->
         well_formed v)
  /\ (forall acc s v r,
         Json.parse_elements fuel acc s = Some (v, r) ->
         Forall well_formed acc ->
         well_formed v).
Proof.
  induction fuel as [|fuel (IHv & IHm & IHe)].
  { repeat split; intros; discriminate. }
  split; [|split].
  - intros s v r E. apply parse_value_cases in E.
    destruct E as [[t ->]|[[z ->]|[->|[[b ->]|[->|[->|[(s' & r' & E)|(s' & r' & E)]]]]]]].
    + constructor.
    + constructor.
    + constructor.
    + constructor.
    + constructor; constructor.
    + constructor; constructor.
    + eapply IHm; [exact E|constructor|constructor].
    + eapply IHe; [exact E|constructor].
  - intros acc s v rest. cbn [Json.parse_members].
    destruct (Json.skip_ws s) as [|c r]; [discriminate|].
    destruct (Ascii.eqb c Json.quote); [|discriminate].
    destruct (Json.parse_string_body r) as [[k r1]|]; [|discriminate].
    destruct (Json.skip_ws r1) as [|c1 r2]; [discriminate|].
    destruct (Ascii.eqb_spec c1 ":") as [->|N].
    2:{ destruct c1 as [[] [] [] [] [] [] [] []]; try discriminate.
        exfalso; apply N; reflexivity. }
    destruct (Json.parse_value fuel r2) as [[x r3]|] eqn:Ex; [|discriminate].
    apply IHv in Ex.
    destruct (Json.skip_ws r3) as [|c3 r4]; [discriminate|].
    intros E Wa Sa.
    assert (Wi : Forall (fun p => well_formed (snd p)) (Json.obj_insert k x acc))
      by (apply obj_insert_values; assumption).
    assert (Si : StronglySorted key_lt (map fst (Json.obj_insert k x acc)))
      by (apply obj_insert_sorted; assumption).
    destruct (Ascii.eqb_spec c3 ",") as [->|N1].
    { eapply IHm; eassumption. }
    destruct (Ascii.eqb_spec c3 "}") as [->|N2].
    { inversion E; subst. constructor; assumption. }
    destruct c3 as [[] [] [] [] [] [] [] []]; try discriminate;
      exfalso; (apply N1; reflexivity) || (apply N2; reflexivity).
  - intros acc s v rest. rewrite parse_elements_eq.
    destruct (Json.parse_value fuel s) as [[x r1]|] eqn:Ex; [|discriminate].
    apply IHv in Ex.
    destruct (Json.skip_ws r1) as [|c3 r4]; [discriminate|].
    intros E Wa.
    destruct (Ascii.eqb_spec c3 ",") as [->|N1].
    { eapply IHe; [exact E|constructor; assumption]. }
    destruct (Ascii.eqb_spec c3 "]") as [->|N2].
    { inversion E; subst. constructor.
      change (rev acc ++ [x])%list with (rev (x :: acc)).
      apply Forall_rev. constructor; assumption. }
    destruct c3 as [[] [] [] [] [] [] [] []]; try discriminate;
      exfalso; (apply N1; reflexivity) || (apply N2; reflexivity).
Qed.

Lemma parse_is_well_formed (s : string) (v : Json.value) :
  Json.parse s = Some v -> well_formed v.
Proof.
  unfold Json.parse.
  destruct (Json.parse_value _ s) as [[x r]|] eqn:E; [|discriminate].
  apply (proj1 (parse_well_formed _)) in E.
  destruct (Json.skip_ws r); intros H; inversion H; subst; exact E.
Qed.

(** ** The decoder's fuel covers every printed value *)






(** * The detour through text changes nothing *)

Lemma get_well_formed (k : string) (fs : list (string * Json.value)) (v : Json.value) :
  Forall (fun p => well_formed (snd p)) fs -> Json.get k fs = Some v -> well_formed v.
Proof.
  induction fs as [|[k' x] r IH]; simpl; intros H; [discriminate|].
  inversion H; subst. destruct (String.eqb k k').
  - intros E; inversion E; subst; assumption.
  - apply IH; assumption.
Qed.








(** ** What decoding stores *)


Lemma sorted_NoDup (l : list string) : StronglySorted key_lt l -> NoDup l.
Proof.
  induction l as [|a l IH]; intros H; [constructor|].
  inversion H as [|? ? Hs Ha]; subst. constructor; [|apply IH; exact Hs].
  intros I. rewrite Forall_forall in Ha. specialize (Ha a I).
  unfold key_lt in Ha.
  assert (E : String.compare a a = Eq).
  { clear. induction a as [|c a IH]; simpl; [reflexivity|].
    unfold Ascii.compare. rewrite N.compare_refl. exact IH. }
  congruence.
Qed.





(** * What the reading operations return *)

Lemma results_object (body : string) (top fs : list (string * Json.value)) :
  Json.parse body = Some (Json.JObj top) ->
  Json.get "results" top = Some (Json.JObj fs) ->
  Json.Unmarshal_map body = inl (Json.JObj top)
  /\ descend (Json.JObj top) ["results"] = inl (Json.JObj fs)
  /\ NoDup (map fst fs).
Proof.
  intros Hp Hg. unfold Json.Unmarshal_map. rewrite Hp. split; [reflexivity|].
  split; [simpl; rewrite Hg; reflexivity|].
  apply parse_is_well_formed in Hp. inversion Hp as [| | | | |? Wl Ws]; subst.
  pose proof (get_well_formed _ _ _ Wl Hg) as W.
  inversion W; subst. apply sorted_NoDup. assumption.
Qed.









(** * String() *)








(** ** One KeyRing per entry *)

(** X1: when KeyRings succeeds, it returns one KeyRing per entry of the
    "results" object: the identifiers returned are the keys of that object
    (in an order the Go map iteration leaves open), no identifier occurs
    twice, and every KeyRing carries the address the call was given. *)
Theorem KeyRings_one_per_entry
        (V address body : string) (from to : Z)
        (top : list (string * Json.value)) (entries : list (string * Json.value))
        (out : list KeyRing) :
  Json.parse body = Some (Json.JObj top) ->
  Json.get "results" top = Some (Json.JObj entries) ->
  KeyRings V (answering body) address from to = Ok out ->
  Permutation (map Identifier out) (map fst entries)
  /\ NoDup (map Identifier out)
  /\ List.length out = List.length entries
  /\ Forall (fun k => axleAddress k = address) out.
Proof.
  intros Hp Hg.
  destruct (results_object body top entries Hp Hg) as (_ & _ & Nd).
  unfold KeyRings, answering, Json.Unmarshal_map. rewrite Hp.
  simpl. rewrite Hg. intros E.
  destruct (KeyRings_entries_identifiers address entries out E) as [I A].
  split; [rewrite I; apply Permutation_refl|].
  split; [rewrite I; exact Nd|]. split; [|exact A].
  rewrite <- (length_map Identifier), I. apply length_map.
Qed.

Lemma KeyRings_one_per_entry_witness :
  let out := [mkKeyRing "k1" (Whole 7) (Whole 0) "http://h" false;
              mkKeyRing "k2" (Whole 0) (Whole 0) "http://h" false] in
  Permutation (map Identifier out) ["k1"; "k2"]
  /\ NoDup (map Identifier out)
  /\ List.length out = 2%nat
  /\ Forall (fun k => axleAddress k = "http://h") out.
Proof.
  intros out.
  apply (KeyRings_one_per_entry "/v1/" "http://h"
           (dq "{'results':{'k2':{},'k1':{'createdAt':7}}}") 0 10
           [("results", Json.JObj [("k1", Json.JObj [("createdAt", Json.JNum 7)]);
                                   ("k2", Json.JObj [])])]
           [("k1", Json.JObj [("createdAt", Json.JNum 7)]); ("k2", Json.JObj [])]);
    vm_compute; reflexivity.
Defined.

(** ** Operations that cannot panic *)

(** X12: GetKeyRing, DeleteKeyRing and Save never panic, whatever the
    transport answers: each returns a value or an error.  (The pointer that
    populateKeyRingFromResponse may set to nil is never nil after a
    descent through the key "results", which is the only way these
    operations call it.) *)
Theorem single_resource_operations_never_panic
        (V : string) (http : string -> string -> option string -> response)
        (now : Z) (msg : string) :
  (forall address identifier, GetKeyRing V http address identifier <> Panic msg)
  /\ (forall address identifier, DeleteKeyRing V http address identifier <> Panic msg)
  /\ (forall this, snd (Save V http now this) <> Panic msg).
Proof.
  split; [|split].
  - intros address identifier. unfold GetKeyRing.
    destruct (http "GET" _ None) as [body|e]; [|discriminate].
    pose proof (populate_pointer_kept (NewKeyRing address identifier) body ["results"]) as K.
    destruct (populateKeyRingFromResponse (NewKeyRing address identifier) body ["results"])
      as [[k'|] [e|]]; try discriminate.
    exfalso. apply K; [discriminate|reflexivity].
  - intros address identifier. unfold DeleteKeyRing.
    destruct (http "DELETE" _ None) as [body|e]; [|discriminate].
    destruct (Json.Unmarshal_map body) as [m|e]; [|discriminate].
    destruct (Json.index m "results") as [[|[]| | | |]|]; discriminate.
  - intros this. unfold Save.
    set (this1 := set_UpdatedAt this (Whole (Z.quot now (1000 * 1000)))).
    destruct (KeyRingJson.Marshal this1) as [m|e]; [|discriminate].
    destruct (negb (createOnSave this1)); [discriminate|].
    destruct (http "POST" _ (Some m)) as [body|e]; [|discriminate].
    pose proof (populate_pointer_kept this1 body ["results"]) as K.
    destruct (populateKeyRingFromResponse this1 body ["results"]) as [[k'|] [e|]];
      try discriminate.
    exfalso. apply K; [discriminate|reflexivity].
Qed.
